(** * Name handling of the enumeration: a shallow embedding of
    [tools/recon/amass/enum/names.go]

    The file embeds the two pipeline stages of [names.go] (the FQDN filter
    with its duplicate-name goroutine, and the subdomain task with its
    counter goroutine and its output drain) as Rocq functions with explicit
    state passing, and proves properties of them. *)

From Stdlib Require Import ZArith Lia Ascii String List Bool.
From stdpp Require Import gmap strings list sorting.
Import ListNotations.

Local Open Scope string_scope.
Local Open Scope Z_scope.

(** ** Go primitives used by the source *)

Module Go.

(** Go's signed integers: a [bits]-wide two's complement value, kept as a
    [Z] in [-2^(bits-1), 2^(bits-1)); arithmetic wraps around. *)
Definition wrap (bits : Z) (x : Z) : Z :=
  (x + 2 ^ (bits - 1)) mod 2 ^ bits - 2 ^ (bits - 1).

(** [int] on the 64-bit platforms, and [int64]. *)
Definition int (x : Z) : Z := wrap 64 x.
Definition int64 (x : Z) : Z := wrap 64 x.
Definition maxInt : Z := 2 ^ 63 - 1.

(** [strconv.FormatBool] *)
Definition FormatBool (b : bool) : string :=
  if b then "true" else "false".

(** [strings.Split(s, sep)] for a separator of one byte, which is how the
    source calls it ([Split(x, ".")]): the substrings between the
    separators, never an empty slice. *)
Fixpoint Split (s : string) (sep : ascii) : list string :=
  match s with
  | EmptyString => [EmptyString]
  | String c rest =>
      if Ascii.eqb c sep then EmptyString :: Split rest sep
      else match Split rest sep with
           | l :: ls => String c l :: ls
           | [] => [String c EmptyString]
           end
  end.

(** [strings.Join(elems, sep)] *)
Definition Join (elems : list string) (sep : string) : string :=
  String.concat sep elems.

(** The table [asciiSpace] of package strings: tab, newline, vertical tab,
    form feed, carriage return and space. *)
Definition asciiSpace (c : ascii) : bool :=
  let n := N_of_ascii c in
  ((9 <=? n) && (n <=? 13) || (n =? 32))%N.

(** [unicode.IsSpace] on the runes above U+007F, read on their UTF-8
    encoding: U+0085 and U+00A0 take two bytes. *)
Definition space2 (c1 c2 : ascii) : bool :=
  let a := N_of_ascii c1 in
  let b := N_of_ascii c2 in
  ((a =? 194) && ((b =? 133) || (b =? 160)))%N.

(** U+1680, U+2000..U+200A, U+2028, U+2029, U+202F, U+205F and U+3000 take
    three bytes. *)
Definition space3 (c1 c2 c3 : ascii) : bool :=
  let a := N_of_ascii c1 in
  let b := N_of_ascii c2 in
  let c := N_of_ascii c3 in
  ((a =? 225) && (b =? 154) && (c =? 128)
   || (a =? 226) && (b =? 128)
      && ((128 <=? c) && (c <=? 138) || (c =? 168) || (c =? 169) || (c =? 175))
   || (a =? 226) && (b =? 129) && (c =? 159)
   || (a =? 227) && (b =? 128) && (c =? 128))%N.

(** Removal of the leading white space: as long as the string starts with
    the encoding of a space rune, that rune is dropped. Any other start
    (another rune, or bytes that are not UTF-8 and decode to U+FFFD) is not
    a space and stops the scan. *)
Fixpoint trimLeft (s : string) : string :=
  match s with
  | EmptyString => s
  | String c1 s1 =>
      if asciiSpace c1 then trimLeft s1
      else match s1 with
           | EmptyString => s
           | String c2 s2 =>
               if space2 c1 c2 then trimLeft s2
               else match s2 with
                    | EmptyString => s
                    | String c3 s3 =>
                        if space3 c1 c2 c3 then trimLeft s3 else s
                    end
           end
  end.

(** The same scan from the end, on the reversed bytes: the last rune is a
    space exactly when the string ends with the encoding of one. *)
Fixpoint trimLeftRev (s : string) : string :=
  match s with
  | EmptyString => s
  | String c1 s1 =>
      if asciiSpace c1 then trimLeftRev s1
      else match s1 with
           | EmptyString => s
           | String c2 s2 =>
               if space2 c2 c1 then trimLeftRev s2
               else match s2 with
                    | EmptyString => s
                    | String c3 s3 =>
                        if space3 c3 c2 c1 then trimLeftRev s3 else s
                    end
           end
  end.

Definition rev (s : string) : string :=
  string_of_list_ascii (List.rev (list_ascii_of_string s)).

Definition trimRight (s : string) : string := rev (trimLeftRev (rev s)).

(** [strings.TrimSpace]: leading white space goes first, then trailing
    white space of what is left. *)
Definition TrimSpace (s : string) : string := trimRight (trimLeft s).

End Go.

(** ** The request types of package [requests] that the code builds and reads *)

Record DNSAnswer := {
  ans_Name : string;
  ans_Type : Z;
  ans_TTL : Z;
  ans_Data : string
}.

Record DNSRequest := {
  dns_Name : string;
  dns_Domain : string;
  dns_Records : list DNSAnswer;
  dns_Tag : string;
  dns_Source : string
}.

Record ResolvedRequest := {
  res_Name : string;
  res_Domain : string;
  res_Records : list DNSAnswer;
  res_Tag : string;
  res_Source : string
}.

Record SubdomainRequest := {
  sub_Name : string;
  sub_Domain : string;
  sub_Tag : string;
  sub_Source : string;
  sub_Times : Z
}.

(** [Clone] of the two queued request types: a copy with the same fields. *)
Definition cloneResolved (v : ResolvedRequest) : ResolvedRequest :=
  {| res_Name := res_Name v; res_Domain := res_Domain v;
     res_Records := res_Records v; res_Tag := res_Tag v;
     res_Source := res_Source v |}.

Definition cloneSubdomain (v : SubdomainRequest) : SubdomainRequest :=
  {| sub_Name := sub_Name v; sub_Domain := sub_Domain v;
     sub_Tag := sub_Tag v; sub_Source := sub_Source v;
     sub_Times := sub_Times v |}.

(** What a [queue.Queue] or a [pipeline.Data] holds is an [interface{}]: one
    of the request types, or a value of some other dynamic type (named here
    by a label). A [*requests.DNSRequest] may be the nil pointer. *)
Inductive element :=
| ResolvedElem (v : ResolvedRequest)
| SubdomainElem (v : SubdomainRequest)
| DNSElem (req : option DNSRequest)
| ForeignElem (label : string).

(** ** The subdomain task *)

(** The parts of [*Enumeration] the subdomain task reads: the registered
    data sources (by name), the scope test of the configuration and the
    CNAME test of the graph. *)
Record Enumeration := {
  srcs : list string;
  IsDomainInScope : string -> bool;
  IsCNAMENode : string -> bool
}.

(** One call [src.Request(ctx, v)]. *)
Record delivery := { to_src : string; payload : element }.

(** One call [pipeline.SendData(ctx, stage, data, tp)]. *)
Record sendData := { stage : string; data : SubdomainRequest }.

(** The state the task's methods and goroutines share: the output queue
    (head first; [Append] adds at the end, [Next] takes the head), the map of
    [timesManager], and the log of the calls to [pipeline.SendData]. *)
Record subdomainTask := {
  queue : list element;
  subdomains : gmap string Z;
  sent : list sendData
}.

(** *** OutputRequests *)

(** The loop [for _, src := range r.enum.srcs] with its type switch. The
    first component of the result tells whether the loop left through
    [continue loop]. *)
Fixpoint rangeSrcs (sources : list string) (e : element) (count : Z)
    (out : list delivery) : bool * Z * list delivery :=
  match sources with
  | [] => (false, count, out)
  | src :: rest =>
      match e with
      | ResolvedElem v =>
          rangeSrcs rest e (Go.int (count + 1))
            (out ++ [{| to_src := src; payload := ResolvedElem (cloneResolved v) |}])
      | SubdomainElem v =>
          rangeSrcs rest e (Go.int (count + 1))
            (out ++ [{| to_src := src; payload := SubdomainElem (cloneSubdomain v) |}])
      | _ => (true, count, out)
      end
  end.

(** The loop labelled [loop]: one iteration per element taken from the queue.
    The result is the final [count], the queue that is left and the
    deliveries made. *)
Fixpoint drain (sources : list string) (num : Z) (q : list element)
    (count : Z) (out : list delivery) : Z * list element * list delivery :=
  match q with
  | [] => (count, [], out)
  | e :: rest =>
      match rangeSrcs sources e count out with
      | (true, count', out') => drain sources num rest count' out'
      | (false, count', out') =>
          if num <=? count' then (count', rest, out')
          else drain sources num rest count' out'
      end
  end.

(** [OutputRequests]: the count returned, the task afterwards and the calls
    [src.Request] made, in order. *)
Definition OutputRequests (enum : Enumeration) (r : subdomainTask) (num : Z)
    : Z * subdomainTask * list delivery :=
  if num <=? 0 then (0, r, [])
  else
    let '(count, q, out) := drain (srcs enum) num (queue r) 0 [] in
    (count, {| queue := q; subdomains := subdomains r; sent := sent r |}, out).

(** *** timesManager and timesForSubdomain *)

(** What the [select] of [timesManager] receives: the close of [r.done] or a
    request on [r.timesChan]. *)
Inductive timesEvent :=
| TimesDone
| TimesReq (Sub : string).

(** The case [req := <-r.timesChan]: the new map and the value sent on
    [req.Ch]. *)
Definition timesCase (subdomains : gmap string Z) (Sub : string)
    : gmap string Z * Z :=
  let times :=
    match subdomains !! Sub with
    | Some times => Go.int (times + 1)
    | None => 1
    end in
  (<[Sub := times]> subdomains, times).

(** The loop of [timesManager] over the events it receives, from the map it
    holds; the result lists the values it sent back, in order. *)
Fixpoint timesLoop (subdomains : gmap string Z) (events : list timesEvent)
    : list Z :=
  match events with
  | [] => []
  | TimesDone :: _ => []
  | TimesReq Sub :: rest =>
      let '(subdomains', times) := timesCase subdomains Sub in
      times :: timesLoop subdomains' rest
  end.

(** [timesManager] starts from [make(map[string]int)]. *)
Definition timesManager (events : list timesEvent) : list Z :=
  timesLoop ∅ events.

(** [timesForSubdomain]: the request goes to the manager, which owns the
    map, and the caller waits for the answer. *)
Definition timesForSubdomain (r : subdomainTask) (sub : string)
    : subdomainTask * Z :=
  let '(subdomains', times) := timesCase (subdomains r) sub in
  ({| queue := queue r; subdomains := subdomains'; sent := sent r |}, times).

(** *** Process and checkForSubdomains *)

(** [r.queue.Append(e)] *)
Definition Append (r : subdomainTask) (e : element) : subdomainTask :=
  {| queue := queue r ++ [e]; subdomains := subdomains r; sent := sent r |}.

(** [go pipeline.SendData(ctx, "root", subreq, tp)] *)
Definition SendData (r : subdomainTask) (name : string)
    (subreq : SubdomainRequest) : subdomainTask :=
  {| queue := queue r; subdomains := subdomains r;
     sent := sent r ++ [{| stage := name; data := subreq |}] |}.

(** The separator of labels. *)
Definition dot : ascii := "."%char.

(** [checkForSubdomains]: the task afterwards and the data returned, which is
    always the request itself. *)
Definition checkForSubdomains (enum : Enumeration) (r : subdomainTask)
    (req : DNSRequest) : subdomainTask * option element :=
  let labels := Go.Split (dns_Name req) dot in
  let num := Z.of_nat (length labels) in
  if num <? 2 then (r, Some (DNSElem (Some req)))
  else if num - 1 <? Z.of_nat (length (Go.Split (dns_Domain req) dot))
  then (r, Some (DNSElem (Some req)))
  else
    let sub := Go.TrimSpace (Go.Join (drop 1 labels) ".") in
    if IsCNAMENode enum sub then (r, Some (DNSElem (Some req)))
    else
      let '(r1, times) := timesForSubdomain r sub in
      let subreq := {| sub_Name := sub; sub_Domain := dns_Domain req;
                       sub_Tag := dns_Tag req; sub_Source := dns_Source req;
                       sub_Times := times |} in
      let r2 := Append r1 (SubdomainElem subreq) in
      let r3 :=
        if negb (String.eqb sub (dns_Domain req)) && (sub_Times subreq =? 1)
        then SendData r2 "root" subreq
        else r2 in
      (r3, Some (DNSElem (Some req))).

(** The labels of service subdomains, which [Process] does not evaluate. *)
Definition serviceLabel (label : string) : bool :=
  String.eqb label "_tcp" || String.eqb label "_udp" || String.eqb label "_tls".

(** [subdomainTask.Process]: the new state and the returned data ([None] is
    the nil data). *)
Definition Process (enum : Enumeration) (r : subdomainTask) (data : element)
    : subdomainTask * option element :=
  match data with
  | DNSElem None => (r, None)
  | DNSElem (Some req) =>
      if negb (IsDomainInScope enum (dns_Name req)) then (r, None)
      else
        let labels := Go.Split (dns_Name req) dot in
        if existsb serviceLabel labels then (r, None)
        else
          let r1 := Append r (ResolvedElem
                      {| res_Name := dns_Name req; res_Domain := dns_Domain req;
                         res_Records := [] ++ dns_Records req;
                         res_Tag := dns_Tag req; res_Source := dns_Source req |}) in
          checkForSubdomains enum r1 req
  | _ => (r, Some data)
  end.

(** ** The FQDN filter *)

(** The interface [stringfilter.Filter], as far as the code calls it:
    [Duplicate] inserts the string and tells whether it was there. *)
Class Filter (F : Type) := {
  NewBloomFilter : Z -> F;
  Has : F -> string -> bool;
  Duplicate : F -> string -> bool * F
}.

(** What the code relies on: a new filter holds nothing, [Duplicate] answers
    as [Has] would, and a string once inserted stays (a Bloom filter has no
    false negatives). A filter may still report strings it never received. *)
Class FilterLaws (F : Type) `{Filter F} : Prop := {
  Has_new : forall size s, Has (NewBloomFilter size) s = false;
  Duplicate_Has : forall f s, fst (Duplicate f s) = Has f s;
  Has_Duplicate : forall f s, Has (snd (Duplicate f s)) s = true;
  Has_mono : forall f s t, Has f t = true -> Has (snd (Duplicate f s)) t = true
}.

(** A filter without false positives: an insertion changes the answer for
    the inserted string only. *)
Class ExactFilter (F : Type) `{Filter F} : Prop := {
  Has_other : forall f s t, s <> t -> Has (snd (Duplicate f s)) t = Has f t
}.

(** The exact set of the strings inserted, as a list. *)
Definition listHas (f : list string) (s : string) : bool :=
  existsb (String.eqb s) f.

#[export] Instance listFilter : Filter (list string) := {
  NewBloomFilter := fun _ => [];
  Has := listHas;
  Duplicate := fun f s => if listHas f s then (true, f) else (false, s :: f)
}.

(** The parts of the package the filter reads that are declared outside
    [names.go]: the constant [filterMaxSize], [DNSRequest.Valid] and
    [requests.TrustedTag]. *)
Record FilterEnv := {
  filterMaxSize : Z;
  Valid : DNSRequest -> bool;
  TrustedTag : string -> bool
}.

(** The fields of [fqdnFilter] that [checkFilter] uses; [dups] is [f.queue],
    which only ever receives [*requests.DNSRequest]. *)
Record fqdnFilter (F : Type) := {
  filter : F;
  count : Z;
  dups : list DNSRequest
}.
Arguments filter {F} _.
Arguments count {F} _.
Arguments dups {F} _.

(** [checkFilter], under the lock: the new state and the request returned
    ([None] is nil). *)
Definition checkFilter {F : Type} `{Filter F} (env : FilterEnv)
    (f : fqdnFilter F) (req : DNSRequest) : fqdnFilter F * option DNSRequest :=
  if negb (Valid env req) then (f, None)
  else
    let f1 :=
      if filterMaxSize env <=? count f
      then {| filter := NewBloomFilter (filterMaxSize env); count := 0;
              dups := dups f |}
      else f in
    let trusted := TrustedTag env (dns_Tag req) in
    if negb trusted && Has (filter f1) (dns_Name req ++ Go.FormatBool true)%string
    then ({| filter := filter f1; count := count f1; dups := dups f1 ++ [req] |},
          None)
    else
      let '(dup, flt) :=
        Duplicate (filter f1) (dns_Name req ++ Go.FormatBool trusted)%string in
      if dup
      then ({| filter := flt; count := count f1; dups := dups f1 ++ [req] |},
            None)
      else ({| filter := flt; count := Go.int64 (count f1 + 1);
               dups := dups f1 |}, Some req).

(** [newFQDNFilter] *)
Definition newFQDNFilter {F : Type} `{Filter F} (env : FilterEnv)
    : fqdnFilter F :=
  {| filter := NewBloomFilter (filterMaxSize env); count := 0; dups := [] |}.

(** *** processDupNames *)

(** Instants and durations in nanoseconds, as package [time] counts them. *)
Module Time.
Definition Second : Z := 1000000000.
Definition Minute : Z := 60 * Second.
Definition Add (t d : Z) : Z := t + d.
Definition Before (t u : Z) : bool := t <? u.
End Time.

Record altsource := {
  alt_Name : string;
  alt_Source : string;
  alt_Tag : string;
  alt_Timestamp : Z
}.

(** The two graph calls of the goroutine: [ReadNode] tells whether the error
    is nil, [InsertFQDN] changes the graph. *)
Class Graph (G : Type) := {
  ReadNode : G -> string -> string -> bool;
  InsertFQDN : G -> string -> string -> string -> string -> G
}.

(** The closure [each], called at the instant [now] (what [time.Now()]
    gives). *)
Definition each (now : Z) (pending : list altsource) (req : DNSRequest)
    : list altsource :=
  pending ++ [{| alt_Name := dns_Name req; alt_Source := dns_Source req;
                 alt_Tag := dns_Tag req; alt_Timestamp := now |}].

(** The body shared by the two loops over [pending]. *)
Definition reconcile {G : Type} `{Graph G} (uuid : string) (g : G)
    (a : altsource) : G :=
  if ReadNode g (alt_Name a) "fqdn"
  then InsertFQDN g (alt_Name a) (alt_Source a) (alt_Tag a) uuid
  else g.

(** The loop [for _, a := range pending] of the ticker case: the graph and
    [count] when it ends. *)
Fixpoint scanPending {G : Type} `{Graph G} (uuid : string) (now : Z)
    (pending : list altsource) (g : G) (count : Z) : G * Z :=
  match pending with
  | [] => (g, count)
  | a :: rest =>
      if Time.Before now (Time.Add (alt_Timestamp a) (10 * Time.Minute))
      then (g, count)
      else scanPending uuid now rest (reconcile uuid g a) (Go.int (count + 1))
  end.

(** The case [now := <-t.C]: the graph and the buffer after it. *)
Definition tick {G : Type} `{Graph G} (uuid : string) (now : Z)
    (pending : list altsource) (g : G) : G * list altsource :=
  let '(g', count) := scanPending uuid now pending g 0 in
  (g', drop (Z.to_nat count) pending).

(** The loop after [break loop]: every buffered entry is handled. *)
Definition flush {G : Type} `{Graph G} (uuid : string)
    (pending : list altsource) (g : G) : G :=
  fold_left (reconcile uuid) pending g.

(** A graph for examples: the FQDN nodes it holds and the insertions made. *)
Record listGraph := {
  nodes : list string;
  inserted : list (string * string * string * string)
}.

#[export] Instance listGraphOps : Graph listGraph := {
  ReadNode := fun g name kind => String.eqb kind "fqdn" && listHas (nodes g) name;
  InsertFQDN := fun g name source tag uuid =>
    {| nodes := nodes g; inserted := inserted g ++ [(name, source, tag, uuid)] |}
}.

(** The two cases of the type switch of [OutputRequests] that deliver the
    element; every other dynamic type falls to [default]. *)
Definition recognized (e : element) : bool :=
  match e with
  | ResolvedElem _ | SubdomainElem _ => true
  | _ => false
  end.

(** The task with another output queue. *)
Definition withQueue (r : subdomainTask) (q : list element) : subdomainTask :=
  {| queue := q; subdomains := subdomains r; sent := sent r |}.

(** ** Sample data *)

Module Sample.

Definition dnsreq (name domain tag : string) : DNSRequest :=
  {| dns_Name := name; dns_Domain := domain; dns_Records := [];
     dns_Tag := tag; dns_Source := "Sample" |}.

Definition resolved (name : string) : ResolvedRequest :=
  {| res_Name := name; res_Domain := "example.com"; res_Records := [];
     res_Tag := "dns"; res_Source := "Sample" |}.

Definition task (q : list element) : subdomainTask :=
  {| queue := q; subdomains := ∅; sent := [] |}.

(** An enumeration with the given sources, every name in scope and no
    CNAME node in the graph. *)
Definition enum (sources : list string) : Enumeration :=
  {| srcs := sources; IsDomainInScope := fun _ => true;
     IsCNAMENode := fun _ => false |}.

(** A buffer of three duplicates seen at 0 s, 1 s and 400 s, and a graph
    that holds a node for the first name only. *)
Definition pending : list altsource :=
  [ {| alt_Name := "a.example.com"; alt_Source := "Sample"; alt_Tag := "api";
       alt_Timestamp := 0 |};
    {| alt_Name := "b.example.com"; alt_Source := "Sample"; alt_Tag := "api";
       alt_Timestamp := 1 * Time.Second |};
    {| alt_Name := "c.example.com"; alt_Source := "Sample"; alt_Tag := "api";
       alt_Timestamp := 400 * Time.Second |} ].

Definition graph : listGraph :=
  {| nodes := ["a.example.com"]; inserted := [] |}.

(** A filter environment: every request is valid, the tags [dns] and [cert]
    are trusted, and the filter is replaced after [max] accepted names. *)
Definition filterEnv (max : Z) : FilterEnv :=
  {| filterMaxSize := max; Valid := fun _ => true;
     TrustedTag := fun tag => String.eqb tag "dns" || String.eqb tag "cert" |}.

(** Requests for two names, each from a trusted and from an untrusted
    source, and the new filter over the exact list. *)
Definition aTrusted : DNSRequest := dnsreq "a.example.com" "example.com" "dns".
Definition aUntrusted : DNSRequest := dnsreq "a.example.com" "example.com" "api".
Definition bTrusted : DNSRequest := dnsreq "b.example.com" "example.com" "dns".
Definition bUntrusted : DNSRequest := dnsreq "b.example.com" "example.com" "api".

Definition newFilter (max : Z) : fqdnFilter (list string) :=
  newFQDNFilter (filterEnv max).

(** Trusted requests for names that differ from each other and from the
    two above: the name number [n] is made of [20 + n] letters. *)
Fixpoint letters (n : nat) : string :=
  match n with
  | O => EmptyString
  | S n' => String "x" (letters n')
  end.

Definition filler (n : nat) : DNSRequest :=
  dnsreq (letters (20 + n)) "example.com" "dns".

End Sample.
(** The number of separators in a string. *)
Fixpoint countSep (sep : ascii) (s : string) : nat :=
  match s with
  | EmptyString => 0
  | String c rest => (if Ascii.eqb c sep then 1 else 0) + countSep sep rest
  end.

(** The number of requests for [Sub] in a sequence of requests. *)
Fixpoint requestsFor (Sub : string) (subs : list string) : Z :=
  match subs with
  | [] => 0
  | s :: rest => (if String.eqb s Sub then 1 else 0) + requestsFor Sub rest
  end.

(** ** Runs of the filter *)

(** The string the filter holds for a name and a trust bit. *)
Definition filterKey (name : string) (trusted : bool) : string :=
  (name ++ Go.FormatBool trusted)%string.

(** Whether a call of [checkFilter] replaces the Bloom filter: the request is
    valid and the count has reached [filterMaxSize]. *)
Definition resets {F : Type} (env : FilterEnv) (f : fqdnFilter F)
    (req : DNSRequest) : bool :=
  Valid env req && (filterMaxSize env <=? count f).

(** [checkFilter] on a sequence of requests, one call after the other: the
    final state and the values returned. *)
Fixpoint checkAll {F : Type} `{Filter F} (env : FilterEnv) (f : fqdnFilter F)
    (reqs : list DNSRequest) : fqdnFilter F * list (option DNSRequest) :=
  match reqs with
  | [] => (f, [])
  | req :: rest =>
      let '(f1, out) := checkFilter env f req in
      let '(f2, outs) := checkAll env f1 rest in
      (f2, out :: outs)
  end.

(** No call of the sequence replaces the Bloom filter. *)
Fixpoint noReset {F : Type} `{Filter F} (env : FilterEnv) (f : fqdnFilter F)
    (reqs : list DNSRequest) : bool :=
  match reqs with
  | [] => true
  | req :: rest =>
      negb (resets env f req) && noReset env (fst (checkFilter env f req)) rest
  end.

(** The trust bits of the requests returned (accepted) for a name, in
    order. *)
Fixpoint acceptedBits (env : FilterEnv) (name : string)
    (outs : list (option DNSRequest)) : list bool :=
  match outs with
  | [] => []
  | Some req :: rest =>
      if String.eqb (dns_Name req) name
      then TrustedTag env (dns_Tag req) :: acceptedBits env name rest
      else acceptedBits env name rest
  | None :: rest => acceptedBits env name rest
  end.

(** The bits accepted for a name while the filter is not replaced, from what
    the filter holds for the name at the start. *)
Definition allowedBits (hasTrusted hasUntrusted : bool) (bits : list bool) : Prop :=
  if hasTrusted then bits = []
  else if hasUntrusted then bits = [] \/ bits = [true]
  else bits = [] \/ bits = [false] \/ bits = [true] \/ bits = [false; true].

(** ** Further runs of the two stages *)

(** [subdomainTask.Process] on a sequence of data, one call after the other:
    the final task and the values returned. *)
Fixpoint processAll (enum : Enumeration) (r : subdomainTask)
    (datas : list element) : subdomainTask * list (option element) :=
  match datas with
  | [] => (r, [])
  | d :: rest =>
      let '(r1, out) := Process enum r d in
      let '(r2, outs) := processAll enum r1 rest in
      (r2, out :: outs)
  end.

(** The calls [src.Request] that one element gets in [OutputRequests]: one
    for each source, in the order of [r.enum.srcs]. *)
Definition fanout (sources : list string) (e : element) : list delivery :=
  List.map (fun src => {| to_src := src; payload := e |}) sources.

(** The number of subdomain requests for a name in a queue. *)
Fixpoint queuedFor (name : string) (q : list element) : Z :=
  match q with
  | [] => 0
  | SubdomainElem v :: rest =>
      (if String.eqb (sub_Name v) name then 1 else 0) + queuedFor name rest
  | _ :: rest => queuedFor name rest
  end.

(** The valid requests of a run of [checkFilter] that were not returned. *)
Fixpoint turnedDown (env : FilterEnv) (reqs : list DNSRequest)
    (outs : list (option DNSRequest)) : list DNSRequest :=
  match reqs, outs with
  | req :: reqs', None :: outs' =>
      if Valid env req then req :: turnedDown env reqs' outs'
      else turnedDown env reqs' outs'
  | _ :: reqs', Some _ :: outs' => turnedDown env reqs' outs'
  | _, _ => []
  end.

(** The requests of a run of [checkFilter] that were returned. *)
Fixpoint returned (outs : list (option DNSRequest)) : list DNSRequest :=
  match outs with
  | [] => []
  | Some req :: rest => req :: returned rest
  | None :: rest => returned rest
  end.

(** *** The goroutine processDupNames as a whole *)

(** [f.queue.Process(each)]: every element of the queue goes through [each],
    head first, and the queue is left empty. [clock i] is what [time.Now()]
    gives in the call for the element number [i]. *)
Fixpoint processQueue (clock : nat -> Z) (i : nat) (q : list DNSRequest)
    (pending : list altsource) : list altsource :=
  match q with
  | [] => pending
  | req :: rest => processQueue clock (S i) rest (each (clock i) pending req)
  end.

(** What happens to the goroutine, in order: [checkFilter] appends a request
    to [f.queue] in between two rounds of the loop, or the [select] takes the
    case of [f.queue.Signal()], of the ticker, or of [f.enum.done]. *)
Inductive dupEvent :=
| DupQueued (req : DNSRequest)
| DupSignal (clock : nat -> Z)
| DupTick (now : Z)
| DupDone (clock : nat -> Z).

(** [f.enum.Graph] is the graph of the enumeration: the other stages write
    to it while the goroutine runs, in between any two of its calls. The
    goroutine is therefore described by the calls it makes to the graph, in
    order, and by the answers it gets: [found k] tells whether its call of
    [ReadNode] number [k] returns a nil error, which is decided by what the
    graph holds at that moment. *)
Inductive graphCall :=
| CallReadNode (name kind : string)
| CallInsertFQDN (name source tag uuid : string).

Definition isReadNode (c : graphCall) : bool :=
  match c with
  | CallReadNode _ _ => true
  | CallInsertFQDN _ _ _ _ => false
  end.

(** The number of calls of [ReadNode] among the calls made so far. *)
Definition reads (calls : list graphCall) : nat :=
  length (List.filter isReadNode calls).

(** The body shared by the two loops over [pending], on the shared graph:
    [ReadNode] is called, and [InsertFQDN] when the error is nil. *)
Definition reconcileShared (uuid : string) (found : nat -> bool)
    (calls : list graphCall) (a : altsource) : list graphCall :=
  let calls1 := (calls ++ [CallReadNode (alt_Name a) "fqdn"])%list in
  if found (reads calls)
  then (calls1
        ++ [CallInsertFQDN (alt_Name a) (alt_Source a) (alt_Tag a) uuid])%list
  else calls1.

(** The loop of the ticker case: the calls and [count] when it ends. *)
Fixpoint scanShared (uuid : string) (found : nat -> bool) (now : Z)
    (pending : list altsource) (calls : list graphCall) (count : Z)
    : list graphCall * Z :=
  match pending with
  | [] => (calls, count)
  | a :: rest =>
      if Time.Before now (Time.Add (alt_Timestamp a) (10 * Time.Minute))
      then (calls, count)
      else scanShared uuid found now rest (reconcileShared uuid found calls a)
             (Go.int (count + 1))
  end.

(** The case [now := <-t.C]: the calls and the buffer after it. *)
Definition tickShared (uuid : string) (found : nat -> bool) (now : Z)
    (pending : list altsource) (calls : list graphCall)
    : list graphCall * list altsource :=
  let '(calls', count) := scanShared uuid found now pending calls 0 in
  (calls', drop (Z.to_nat count) pending).

(** The loop after [break loop]. *)
Definition flushShared (uuid : string) (found : nat -> bool)
    (pending : list altsource) (calls : list graphCall) : list graphCall :=
  fold_left (reconcileShared uuid found) pending calls.

(** [f.queue], the local [pending] and the calls made to the graph. *)
Record dupState := {
  dupQueue : list DNSRequest;
  dupPending : list altsource;
  dupCalls : list graphCall
}.

(** The loop labelled [loop] and the code after it. The flag tells whether
    the goroutine has returned; events after that do not reach it. *)
Fixpoint dupLoop (uuid : string) (found : nat -> bool)
    (events : list dupEvent) (st : dupState) : dupState * bool :=
  match events with
  | [] => (st, false)
  | DupQueued req :: rest =>
      dupLoop uuid found rest
        {| dupQueue := dupQueue st ++ [req]; dupPending := dupPending st;
           dupCalls := dupCalls st |}
  | DupSignal clock :: rest =>
      dupLoop uuid found rest
        {| dupQueue := [];
           dupPending := processQueue clock 0 (dupQueue st) (dupPending st);
           dupCalls := dupCalls st |}
  | DupTick now :: rest =>
      let '(calls, pending) :=
        tickShared uuid found now (dupPending st) (dupCalls st) in
      dupLoop uuid found rest
        {| dupQueue := dupQueue st; dupPending := pending; dupCalls := calls |}
  | DupDone clock :: _ =>
      let pending := processQueue clock 0 (dupQueue st) (dupPending st) in
      ({| dupQueue := []; dupPending := pending;
          dupCalls := flushShared uuid found pending (dupCalls st) |}, true)
  end.

(** [processDupNames] starts with an empty [pending]; [q] is what
    [checkFilter] has queued before the first round. *)
Definition processDupNames (uuid : string) (found : nat -> bool)
    (events : list dupEvent) (q : list DNSRequest) : dupState * bool :=
  dupLoop uuid found events {| dupQueue := q; dupPending := []; dupCalls := [] |}.

(** The requests that [checkFilter] appended during a sequence of events. *)
Fixpoint queuedBy (events : list dupEvent) : list DNSRequest :=
  match events with
  | [] => []
  | DupQueued req :: rest => req :: queuedBy rest
  | _ :: rest => queuedBy rest
  end.

(** Whether an event is the close of [f.enum.done]. *)
Definition isDone (e : dupEvent) : bool :=
  match e with
  | DupDone _ => true
  | _ => false
  end.

(** Whether an entry of [pending] has waited its ten minutes at [now]. *)
Definition due (now : Z) (a : altsource) : bool :=
  negb (Time.Before now (Time.Add (alt_Timestamp a) (10 * Time.Minute))).

(** [newSubdomainTask]: an empty queue; [timesManager] starts with an empty
    map and nothing was sent yet. *)
Definition newSubdomainTask : subdomainTask :=
  {| queue := []; subdomains := ∅; sent := [] |}.

(** What the counter and the queue of a task are to each other after calls of
    [Process] only: the count held for a name is the number of subdomain
    requests queued for it, every count is between 1 and [bound], every name
    sent to the root stage has a count, and no name was sent twice. *)
Definition counted (bound : Z) (r : subdomainTask) : Prop :=
  (forall name, default 0 (subdomains r !! name) = queuedFor name (queue r))
  /\ (forall name v, subdomains r !! name = Some v -> 1 <= v <= bound)
  /\ (forall s, In s (sent r) -> is_Some (subdomains r !! sub_Name (data s)))
  /\ NoDup (List.map (fun s => sub_Name (data s)) (sent r)).

(** The entry that [each] makes of a request at the instant [now]. *)
Definition entry (now : Z) (req : DNSRequest) : altsource :=
  {| alt_Name := dns_Name req; alt_Source := dns_Source req;
     alt_Tag := dns_Tag req; alt_Timestamp := now |}.

(** No event of the sequence is the close of [f.enum.done]. *)
Definition noDone (events : list dupEvent) : bool :=
  forallb (fun e => negb (isDone e)) events.

(** The readings of [time.Now()] that the goroutine makes during a sequence
    of events, in the order it makes them, when [f.queue] holds [n] requests
    at the start: one for each request that [f.queue.Process(each)] takes.
    Nothing is read after the close of [f.enum.done] was handled. *)
Fixpoint stamps (events : list dupEvent) (n : nat) : list Z :=
  match events with
  | [] => []
  | DupQueued _ :: rest => stamps rest (S n)
  | DupSignal clock :: rest => (clock <$> seq 0 n) ++ stamps rest 0
  | DupTick _ :: rest => stamps rest n
  | DupDone clock :: _ => clock <$> seq 0 n
  end.

(** An entry of [pending] without its time stamp. *)
Definition unstamp (a : altsource) : altsource :=
  {| alt_Name := alt_Name a; alt_Source := alt_Source a;
     alt_Tag := alt_Tag a; alt_Timestamp := 0 |}.

(** The calls that the goroutine makes for one entry when its [ReadNode] is
    the call number [k]. *)
Definition entryCalls (uuid : string) (found : nat -> bool) (k : nat)
    (a : altsource) : list graphCall :=
  CallReadNode (alt_Name a) "fqdn"
  :: (if found k
      then [CallInsertFQDN (alt_Name a) (alt_Source a) (alt_Tag a) uuid]
      else []).

(** A Bloom filter with a single hash function, the length of the string: it
    holds the lengths of the strings inserted and reports every string of
    such a length. *)
Definition lengthHas (f : list nat) (s : string) : bool :=
  existsb (Nat.eqb (String.length s)) f.

Definition lengthFilter : Filter (list nat) := {|
  NewBloomFilter := fun _ => [];
  Has := lengthHas;
  Duplicate := fun f s => (lengthHas f s, String.length s :: f)
|}.

(** * Properties *)

(** ** Go integers *)

Lemma int_small (x : Z) : - 2 ^ 63 <= x < 2 ^ 63 -> Go.int x = x.
Proof.
  intros Hx. unfold Go.int, Go.wrap.
  change (64 - 1) with 63.
  replace (2 ^ 64) with (2 * 2 ^ 63) by reflexivity.
  rewrite Z.mod_small; lia.
Qed.

(** ** OutputRequests *)

Section Drain.

Variable sources : list string.
Variable num : Z.

Lemma rangeSrcs_unrecognized e count out :
  recognized e = false ->
  rangeSrcs sources e count out
  = (match sources with [] => false | _ => true end, count, out).
Proof. destruct sources, e; simpl; intros; congruence. Qed.

Lemma rangeSrcs_recognized e count out :
  recognized e = true ->
  fst (fst (rangeSrcs sources e count out)) = false.
Proof.
  intros He. revert count out.
  induction sources as [|src rest IH]; intros count out; simpl; [done|].
  destruct e; try discriminate; apply IH.
Qed.

Lemma rangeSrcs_continue e count out count' out' :
  rangeSrcs sources e count out = (true, count', out') ->
  count' = count /\ out' = out.
Proof.
  intros Heq. destruct (recognized e) eqn:He.
  - pose proof (rangeSrcs_recognized e count out He) as Hf.
    rewrite Heq in Hf. discriminate.
  - rewrite rangeSrcs_unrecognized in Heq by done.
    split; congruence.
Qed.

(** An element outside the type switch costs one iteration and nothing
    else, whatever the sources are. *)
Lemma drain_unrecognized e q count out :
  recognized e = false -> count < num ->
  drain sources num (e :: q) count out = drain sources num q count out.
Proof.
  intros He Hlt. simpl. rewrite rangeSrcs_unrecognized by done.
  destruct sources; [|done].
  destruct (Z.leb_spec num count); [lia|done].
Qed.

Lemma drain_skip q1 e q2 count out :
  recognized e = false -> count < num ->
  fst (fst (drain sources num (q1 ++ e :: q2) count out))
  = fst (fst (drain sources num (q1 ++ q2) count out))
  /\ snd (drain sources num (q1 ++ e :: q2) count out)
     = snd (drain sources num (q1 ++ q2) count out).
Proof.
  intros He. revert count out.
  induction q1 as [|x q1 IH]; intros count out Hlt.
  - simpl app. by rewrite drain_unrecognized.
  - simpl.
    destruct (rangeSrcs sources x count out) as [[[] count'] out'] eqn:Hx.
    + apply rangeSrcs_continue in Hx as [-> ->]. by apply IH.
    + destruct (Z.leb_spec num count'); [done|]. by apply IH.
Qed.

(** Without sources nothing is counted, so the capacity test never ends
    the loop. *)
Lemma drain_no_sources q out :
  sources = [] -> 0 < num -> drain sources num q 0 out = (0, [], out).
Proof.
  intros -> Hnum. induction q as [|e q IH]; simpl; [done|].
  destruct (Z.leb_spec num 0); [lia|done].
Qed.

(** With a recognized element every source receives one copy. *)
Lemma rangeSrcs_count e count out :
  recognized e = true ->
  0 <= count -> count + Z.of_nat (length sources) < 2 ^ 63 ->
  let '(_, count', out') := rangeSrcs sources e count out in
  count' = count + Z.of_nat (length sources)
  /\ length out' = (length out + length sources)%nat.
Proof.
  intros He. revert count out.
  induction sources as [|src rest IH]; intros count out H0 Hmax; simpl.
  - split; lia.
  - simpl length in Hmax.
    destruct e; try discriminate.
    all: rewrite int_small by lia.
    all: match goal with |- context [rangeSrcs ?l ?e ?c ?o] =>
           specialize (IH c o); destruct (rangeSrcs l e c o) as [[b c'] o']
         end.
    all: rewrite length_app in IH; simpl in IH.
    all: destruct IH as [-> ->]; [lia|lia|split; lia].
Qed.

Lemma drain_bound q count out :
  0 <= count < num -> num + Z.of_nat (length sources) <= 2 ^ 63 ->
  count = Z.of_nat (length out) ->
  let '(count', _, out') := drain sources num q count out in
  0 <= count' < num + Z.of_nat (length sources)
  /\ count' = Z.of_nat (length out').
Proof.
  revert count out.
  induction q as [|e q IH]; intros count out Hc Hmax Hout; simpl.
  - split; lia.
  - destruct (recognized e) eqn:He.
    + pose proof (rangeSrcs_recognized e count out He) as Hf.
      pose proof (rangeSrcs_count e count out He) as Hn.
      destruct (rangeSrcs sources e count out) as [[b count'] out'].
      simpl in Hf. subst b.
      destruct Hn as [Hc' Ho']; [lia|lia|].
      destruct (Z.leb_spec num count').
      * split; lia.
      * apply IH; lia.
    + rewrite rangeSrcs_unrecognized by done.
      destruct sources; [|by apply IH].
      destruct (Z.leb_spec num count); [lia|by apply IH].
Qed.

End Drain.

(** C1 (as stated, refuted): an element of another type at the head of the
    queue does not end the pass. With one source and capacity 5, the resolved
    request queued behind it is still delivered, the count is 1 and the queue
    is empty afterwards. *)
Lemma OutputRequests_unrecognized_no_abort :
  OutputRequests (Sample.enum ["src1"])
    (Sample.task [ForeignElem "other"; ResolvedElem (Sample.resolved "a.example.com")]) 5
  = (1, Sample.task [],
     [{| to_src := "src1";
         payload := ResolvedElem (Sample.resolved "a.example.com") |}]).
Proof. reflexivity. Qed.

(** C1 (amended): an element that is neither a resolved nor a subdomain
    request is skipped and the pass goes on with the next queued element:
    the count returned and the deliveries made are those of the same queue
    without that element, and when the element is at the head the task is
    left in the same state too. *)
Theorem OutputRequests_skips_unrecognized
    (enum : Enumeration) (r : subdomainTask) (num : Z)
    (q1 : list element) (e : element) (q2 : list element) :
  recognized e = false -> 0 < num ->
  let '(count, r', out) := OutputRequests enum (withQueue r (q1 ++ e :: q2)) num in
  let '(count0, r0, out0) := OutputRequests enum (withQueue r (q1 ++ q2)) num in
  count = count0 /\ out = out0 /\ (q1 = [] -> r' = r0).
Proof.
  intros He Hnum. unfold OutputRequests.
  destruct (Z.leb_spec num 0); [lia|]. simpl queue.
  pose proof (drain_skip (srcs enum) num q1 e q2 0 [] He Hnum) as [Hc Ho].
  pose proof (drain_unrecognized (srcs enum) num e q2 0 [] He Hnum) as Hhd.
  destruct (drain (srcs enum) num (q1 ++ e :: q2) 0 []) as [[c q] o] eqn:E1.
  destruct (drain (srcs enum) num (q1 ++ q2) 0 []) as [[c0 q0] o0] eqn:E2.
  simpl in *. repeat split; [done|done|].
  intros ->. simpl in *. congruence.
Qed.

Lemma OutputRequests_skips_unrecognized_witness :
  recognized (DNSElem None) = false /\ 0 < 5
  /\ let '(count, r', out) :=
       OutputRequests (Sample.enum ["src1"; "src2"])
         (withQueue (Sample.task [])
            ([ResolvedElem (Sample.resolved "a.example.com")]
             ++ DNSElem None :: [ResolvedElem (Sample.resolved "b.example.com")])) 5 in
     let '(count0, r0, out0) :=
       OutputRequests (Sample.enum ["src1"; "src2"])
         (withQueue (Sample.task [])
            ([ResolvedElem (Sample.resolved "a.example.com")]
             ++ [ResolvedElem (Sample.resolved "b.example.com")])) 5 in
     count = count0 /\ out = out0
     /\ ([ResolvedElem (Sample.resolved "a.example.com")] = [] -> r' = r0).
Proof.
  split; [reflexivity|]. split; [lia|].
  apply (OutputRequests_skips_unrecognized (Sample.enum ["src1"; "src2"])
           (Sample.task []) 5 [ResolvedElem (Sample.resolved "a.example.com")]
           (DNSElem None) [ResolvedElem (Sample.resolved "b.example.com")]);
    [reflexivity | lia].
Defined.

(** C4 (as stated, refuted): with three sources and capacity 1, the single
    queued request is delivered three times and the count returned is 3. *)
Lemma OutputRequests_exceeds_capacity :
  fst (fst (OutputRequests (Sample.enum ["src1"; "src2"; "src3"])
              (Sample.task [ResolvedElem (Sample.resolved "a.example.com")]) 1))
  = 3.
Proof. reflexivity. Qed.

(** C4 (amended): the capacity is tested after an element has gone to all
    the sources, so the count returned stays below the capacity plus the
    number of sources (and equals the number of deliveries made); with a
    capacity of zero or less nothing is taken from the queue and 0 is
    returned. *)
Theorem OutputRequests_capacity
    (enum : Enumeration) (r : subdomainTask) (num : Z) :
  (num <= 0 -> OutputRequests enum r num = (0, r, []))
  /\ (0 < num -> num + Z.of_nat (length (srcs enum)) <= 2 ^ 63 ->
      let '(count, _, out) := OutputRequests enum r num in
      0 <= count < num + Z.of_nat (length (srcs enum))
      /\ count = Z.of_nat (length out)).
Proof.
  unfold OutputRequests. split.
  - intros Hnum. destruct (Z.leb_spec num 0); [done|lia].
  - intros Hnum Hmax. destruct (Z.leb_spec num 0); [lia|].
    pose proof (drain_bound (srcs enum) num (queue r) 0 []) as Hb.
    destruct (drain (srcs enum) num (queue r) 0 []) as [[c q] o].
    apply Hb; [lia|done|done].
Qed.

Lemma OutputRequests_capacity_witness :
  0 < 1
  /\ 1 + Z.of_nat (length (srcs (Sample.enum ["src1"; "src2"; "src3"]))) <= 2 ^ 63
  /\ let '(count, _, out) :=
       OutputRequests (Sample.enum ["src1"; "src2"; "src3"])
         (Sample.task [ResolvedElem (Sample.resolved "a.example.com")]) 1 in
     0 <= count < 1 + Z.of_nat (length (srcs (Sample.enum ["src1"; "src2"; "src3"])))
     /\ count = Z.of_nat (length out).
Proof.
  split; [lia|]. split; [simpl; lia|].
  apply (proj2 (OutputRequests_capacity (Sample.enum ["src1"; "src2"; "src3"])
           (Sample.task [ResolvedElem (Sample.resolved "a.example.com")]) 1));
    simpl; lia.
Defined.

(** C10: when no source is registered, a drain with a positive capacity takes
    every element from the queue, delivers nothing and returns 0. *)
Theorem OutputRequests_no_sources
    (enum : Enumeration) (r : subdomainTask) (num : Z) :
  srcs enum = [] -> 0 < num ->
  OutputRequests enum r num = (0, withQueue r [], []).
Proof.
  intros Hs Hnum. unfold OutputRequests.
  destruct (Z.leb_spec num 0); [lia|].
  by rewrite drain_no_sources.
Qed.

Lemma OutputRequests_no_sources_witness :
  srcs (Sample.enum []) = [] /\ 0 < 1
  /\ OutputRequests (Sample.enum [])
       (Sample.task [ResolvedElem (Sample.resolved "a.example.com");
                     ForeignElem "other";
                     ResolvedElem (Sample.resolved "b.example.com")]) 1
     = (0, withQueue
             (Sample.task [ResolvedElem (Sample.resolved "a.example.com");
                           ForeignElem "other";
                           ResolvedElem (Sample.resolved "b.example.com")]) [],
        []).
Proof.
  split; [reflexivity|]. split; [lia|].
  apply (OutputRequests_no_sources (Sample.enum [])
           (Sample.task [ResolvedElem (Sample.resolved "a.example.com");
                         ForeignElem "other";
                         ResolvedElem (Sample.resolved "b.example.com")]) 1);
    [reflexivity | lia].
Defined.

(** ** Labels of a name *)

Section Labels.

Variable sep : ascii.

Lemma Split_length s : length (Go.Split s sep) = S (countSep sep s).
Proof.
  induction s as [|c s IH]; simpl; [done|].
  destruct (Ascii.eqb c sep); simpl; [by rewrite IH|].
  destruct (Go.Split s sep); simpl in *; lia.
Qed.

Lemma Split_cons s : exists l ls, Go.Split s sep = l :: ls.
Proof.
  pose proof (Split_length s) as Hlen.
  destruct (Go.Split s sep) as [|l ls]; [done|eauto].
Qed.

Lemma Join_Split s : Go.Join (Go.Split s sep) (String sep "") = s.
Proof.
  unfold Go.Join.
  induction s as [|c s IH]; simpl; [done|].
  destruct (Split_cons s) as (l & ls & Hs). rewrite Hs in *.
  destruct (Ascii.eqb_spec c sep) as [->|Hne].
  - change (String.concat (String sep "") ("" :: l :: ls))
      with (String sep (String.concat (String sep "") (l :: ls))).
    by rewrite IH.
  - rewrite <- IH. by destruct ls.
Qed.

Lemma Split_first s l ls : Go.Split s sep = l :: ls -> countSep sep l = 0%nat.
Proof.
  revert l ls. induction s as [|c s IH]; simpl; intros l ls.
  - by intros [= <- <-].
  - destruct (Ascii.eqb c sep) eqn:Hc; [by intros [= <- <-]|].
    destruct (Go.Split s sep) as [|l' ls'] eqn:Hs; intros [= <- <-]; simpl;
      rewrite Hc; [done|]. by eapply IH.
Qed.

Lemma Split_app first rest :
  countSep sep first = 0%nat ->
  Go.Split (first ++ String sep rest) sep = first :: Go.Split rest sep.
Proof.
  induction first as [|c first IH]; simpl.
  - by rewrite Ascii.eqb_refl.
  - destruct (Ascii.eqb c sep); [done|]. simpl. intros H0.
    by rewrite IH.
Qed.

(** A name of two labels or more is its first label, a separator and the
    other labels joined, and the other labels are the labels of that rest. *)
Lemma Split_drop s :
  (2 <= length (Go.Split s sep))%nat ->
  exists first,
    countSep sep first = 0%nat
    /\ s = (first ++ String sep (Go.Join (drop 1 (Go.Split s sep)) (String sep "")))%string
    /\ Go.Split (Go.Join (drop 1 (Go.Split s sep)) (String sep "")) sep
       = drop 1 (Go.Split s sep).
Proof.
  intros Hlen. pose proof (Join_Split s) as HJ.
  destruct (Go.Split s sep) as [|first [|l ls]] eqn:Hs; simpl in Hlen; try lia.
  exists first. pose proof (Split_first _ _ _ Hs) as H0.
  assert (s = (first ++ String sep (Go.Join (l :: ls) (String sep "")))%string)
    as Heq by (rewrite <- HJ at 1; done).
  repeat split; [done|done|].
  rewrite Heq in Hs. rewrite Split_app in Hs by done.
  simpl drop. congruence.
Qed.

End Labels.

(** ** White space holds no dot *)

Lemma dot_code c : Ascii.eqb c dot = true -> N_of_ascii c = 46%N.
Proof. intros ->%Ascii.eqb_eq. reflexivity. Qed.

Ltac not_dot H :=
  repeat split;
  match goal with
  | |- Ascii.eqb ?c dot = false =>
      destruct (Ascii.eqb c dot) eqn:Hd; [|reflexivity];
      apply dot_code in Hd; exfalso; revert H;
      unfold Go.asciiSpace, Go.space2, Go.space3; cbv zeta;
      repeat (rewrite andb_true_iff || rewrite orb_true_iff
              || rewrite N.leb_le || rewrite N.eqb_eq); lia
  end.

Lemma asciiSpace_not_dot c :
  Go.asciiSpace c = true -> Ascii.eqb c dot = false.
Proof. intros H. not_dot H. Qed.

Lemma space2_not_dot c1 c2 :
  Go.space2 c1 c2 = true -> Ascii.eqb c1 dot = false /\ Ascii.eqb c2 dot = false.
Proof. intros H. not_dot H. Qed.

Lemma space3_not_dot c1 c2 c3 :
  Go.space3 c1 c2 c3 = true ->
  Ascii.eqb c1 dot = false /\ Ascii.eqb c2 dot = false /\ Ascii.eqb c3 dot = false.
Proof. intros H. not_dot H. Qed.

Lemma trimLeft_count s : countSep dot (Go.trimLeft s) = countSep dot s.
Proof.
  remember (String.length s) as n eqn:Hn.
  revert s Hn. induction (lt_wf n) as [n _ IH]. intros s ->.
  destruct s as [|c1 s1]; [done|]. simpl Go.trimLeft.
  destruct (Go.asciiSpace c1) eqn:H1.
  { simpl. rewrite (asciiSpace_not_dot _ H1).
    eapply IH; [|done]. simpl. lia. }
  destruct s1 as [|c2 s2]; [done|].
  destruct (Go.space2 c1 c2) eqn:H2.
  { simpl. destruct (space2_not_dot _ _ H2) as [-> ->].
    eapply IH; [|done]. simpl. lia. }
  destruct s2 as [|c3 s3]; [done|].
  destruct (Go.space3 c1 c2 c3) eqn:H3; [|done].
  simpl. destruct (space3_not_dot _ _ _ H3) as (-> & -> & ->).
  eapply IH; [|done]. simpl. lia.
Qed.

Lemma trimLeftRev_count s : countSep dot (Go.trimLeftRev s) = countSep dot s.
Proof.
  remember (String.length s) as n eqn:Hn.
  revert s Hn. induction (lt_wf n) as [n _ IH]. intros s ->.
  destruct s as [|c1 s1]; [done|]. simpl Go.trimLeftRev.
  destruct (Go.asciiSpace c1) eqn:H1.
  { simpl. rewrite (asciiSpace_not_dot _ H1).
    eapply IH; [|done]. simpl. lia. }
  destruct s1 as [|c2 s2]; [done|].
  destruct (Go.space2 c2 c1) eqn:H2.
  { simpl. destruct (space2_not_dot _ _ H2) as [-> ->].
    eapply IH; [|done]. simpl. lia. }
  destruct s2 as [|c3 s3]; [done|].
  destruct (Go.space3 c3 c2 c1) eqn:H3; [|done].
  simpl. destruct (space3_not_dot _ _ _ H3) as (-> & -> & ->).
  eapply IH; [|done]. simpl. lia.
Qed.

Lemma countSep_filter sep s :
  countSep sep s
  = length (List.filter (fun c => Ascii.eqb c sep) (list_ascii_of_string s)).
Proof.
  induction s as [|c s IH]; simpl; [done|].
  rewrite IH. by destruct (Ascii.eqb c sep).
Qed.

Lemma rev_count sep s : countSep sep (Go.rev s) = countSep sep s.
Proof.
  unfold Go.rev. rewrite !countSep_filter.
  by rewrite list_ascii_of_string_of_list_ascii, filter_rev, length_rev.
Qed.

(** [TrimSpace] keeps the dots, hence the number of labels. *)
Lemma TrimSpace_labels s :
  length (Go.Split (Go.TrimSpace s) dot) = length (Go.Split s dot).
Proof.
  rewrite !Split_length. f_equal.
  unfold Go.TrimSpace, Go.trimRight.
  by rewrite rev_count, trimLeftRev_count, rev_count, trimLeft_count.
Qed.

(** ** Process and checkForSubdomains *)

(** What [checkForSubdomains] does, by cases: it leaves the task alone, or it
    asks for the count of the candidate, queues one subdomain request and
    sends it to the root stage when the candidate is not the domain and the
    count is 1. *)
Lemma checkForSubdomains_cases enum r req :
  let r' := fst (checkForSubdomains enum r req) in
  snd (checkForSubdomains enum r req) = Some (DNSElem (Some req))
  /\ (r' = r
      \/ exists subreq,
           let labels := Go.Split (dns_Name req) dot in
           (2 <= length labels)%nat
           /\ (length (Go.Split (dns_Domain req) dot) <= length labels - 1)%nat
           /\ sub_Name subreq = Go.TrimSpace (Go.Join (drop 1 labels) ".")
           /\ IsCNAMENode enum (sub_Name subreq) = false
           /\ sub_Domain subreq = dns_Domain req
           /\ sub_Times subreq = snd (timesCase (subdomains r) (sub_Name subreq))
           /\ queue r' = (queue r ++ [SubdomainElem subreq])%list
           /\ sent r' = (sent r
                ++ (if negb (String.eqb (sub_Name subreq) (dns_Domain req))
                       && (sub_Times subreq =? 1)
                    then [{| stage := "root"; data := subreq |}] else []))%list).
Proof.
  unfold checkForSubdomains. cbv zeta.
  destruct (Z.ltb_spec (Z.of_nat (length (Go.Split (dns_Name req) dot))) 2);
    [simpl; auto|].
  destruct (Z.ltb_spec (Z.of_nat (length (Go.Split (dns_Name req) dot)) - 1)
              (Z.of_nat (length (Go.Split (dns_Domain req) dot))));
    [simpl; auto|].
  destruct (IsCNAMENode enum _) eqn:Hc; [simpl; auto|].
  unfold timesForSubdomain.
  destruct (timesCase (subdomains r) _) as [m times] eqn:Ht.
  split; [done|]. right.
  exists {| sub_Name :=
              Go.TrimSpace (Go.Join (drop 1 (Go.Split (dns_Name req) dot)) ".");
            sub_Domain := dns_Domain req; sub_Tag := dns_Tag req;
            sub_Source := dns_Source req; sub_Times := times |}.
  cbn [sub_Name sub_Domain sub_Times]. rewrite Ht. simpl.
  repeat split; try done; try lia.
  - by destruct (negb _ && _).
  - destruct (negb _ && _); simpl; [done|]. by rewrite app_nil_r.
Qed.

Lemma app_one_neq {A} (l : list A) (x : A) : l <> (l ++ [x])%list.
Proof.
  intros Heq. apply (f_equal length) in Heq.
  rewrite length_app in Heq. simpl in Heq. lia.
Qed.

(** C2 (as stated, refuted): the name [example.com] of the domain
    [example.com] puts a resolved request on the queue and no subdomain
    request. *)
Lemma Process_resolved_without_subdomain :
  queue (fst (Process (Sample.enum []) (Sample.task [])
                (DNSElem (Some (Sample.dnsreq "example.com" "example.com" "dns")))))
  = [ResolvedElem (Sample.resolved "example.com")].
Proof. reflexivity. Qed.

(** C2 (amended): for every input, [Process] adds to the output queue
    nothing, or one resolved request, or one resolved request followed by one
    subdomain request, both built from the input record. A subdomain request
    is never queued without the resolved request; the resolved request can be
    queued alone. *)
Theorem Process_output (enum : Enumeration) (r : subdomainTask) (data : element) :
  let r' := fst (Process enum r data) in
  queue r' = queue r
  \/ exists req resolved,
       data = DNSElem (Some req)
       /\ res_Name resolved = dns_Name req
       /\ res_Domain resolved = dns_Domain req
       /\ (queue r' = (queue r ++ [ResolvedElem resolved])%list
           \/ exists subreq,
                sub_Domain subreq = dns_Domain req
                /\ queue r'
                   = (queue r ++ [ResolvedElem resolved; SubdomainElem subreq])%list).
Proof.
  unfold Process.
  destruct data as [| |[req|]|]; simpl; auto.
  destruct (negb (IsDomainInScope enum (dns_Name req))); simpl; auto.
  destruct (existsb serviceLabel _); simpl; auto.
  right. eexists req, {| res_Name := dns_Name req |}.
  split; [done|]. split; [done|]. split; [done|].
  match goal with |- context [checkForSubdomains enum ?r1 req] =>
    destruct (checkForSubdomains_cases enum r1 req) as [_ [Hr|(subreq & Hs)]]
  end.
  - left. rewrite Hr. reflexivity.
  - right. exists subreq.
    destruct Hs as (_ & _ & _ & _ & Hd & _ & Hq & _).
    split; [done|]. rewrite Hq. simpl. by rewrite <- app_assoc.
Qed.


(** The example of the specification: the first time [b.example.com] is
    derived it is sent to the root stage, the second time it is not. *)
Example resubmission_first_then_second :
  let enum := Sample.enum [] in
  let r1 := fst (Process enum (Sample.task [])
                   (DNSElem (Some (Sample.dnsreq "a.b.example.com" "example.com" "dns")))) in
  let r2 := fst (Process enum r1
                   (DNSElem (Some (Sample.dnsreq "c.b.example.com" "example.com" "dns")))) in
  map (fun s => (sub_Name (data s), sub_Times (data s))) (sent r1)
  = [("b.example.com", 1)]
  /\ sent r2 = sent r1
  /\ List.last (queue r2) (ForeignElem "")
     = SubdomainElem {| sub_Name := "b.example.com"; sub_Domain := "example.com";
                        sub_Tag := "dns"; sub_Source := "Sample"; sub_Times := 2 |}.
Proof. vm_compute. auto. Qed.

(** C6 (as stated, refuted): the candidate is not always the name without
    its first label. For the name [a. b.example.com] the rest after the first
    label is [ b.example.com], with a leading space, and the candidate queued
    is [b.example.com]. *)
Lemma checkForSubdomains_trims_candidate :
  queue (fst (checkForSubdomains (Sample.enum []) (Sample.task [])
                (Sample.dnsreq "a. b.example.com" "example.com" "dns")))
  = [SubdomainElem {| sub_Name := "b.example.com"; sub_Domain := "example.com";
                      sub_Tag := "dns"; sub_Source := "Sample"; sub_Times := 1 |}]
  /\ Go.Join (drop 1 (Go.Split "a. b.example.com" dot)) "." = " b.example.com".
Proof. split; reflexivity. Qed.

(** C6 (amended): when [checkForSubdomains] queues a subdomain request, the
    name of the record is a first label, a dot and a rest, and the candidate
    is that rest with the white space around it removed; the name has at
    least two labels and the candidate has at least as many labels as the
    domain of the record. *)
Theorem checkForSubdomains_candidate
    (enum : Enumeration) (r : subdomainTask) (req : DNSRequest)
    (subreq : SubdomainRequest) :
  queue (fst (checkForSubdomains enum r req))
  = (queue r ++ [SubdomainElem subreq])%list ->
  exists first rest,
    dns_Name req = (first ++ "." ++ rest)%string
    /\ countSep dot first = 0%nat
    /\ sub_Name subreq = Go.TrimSpace rest
    /\ (2 <= length (Go.Split (dns_Name req) dot))%nat
    /\ (length (Go.Split (dns_Domain req) dot)
        <= length (Go.Split (sub_Name subreq) dot))%nat.
Proof.
  intros Hq.
  destruct (checkForSubdomains_cases enum r req) as [_ [Hr|(subreq' & Hs)]].
  { cbv zeta in Hr. rewrite Hr in Hq. by apply app_one_neq in Hq. }
  destruct Hs as (Hlen & Hdom & Hname & _ & _ & _ & Hq' & _).
  cbv zeta in Hq'. rewrite Hq' in Hq.
  apply app_inv_head in Hq. injection Hq as ->.
  destruct (Split_drop dot (dns_Name req) Hlen) as (first & Hfirst & Heq & Hsplit).
  exists first, (Go.Join (drop 1 (Go.Split (dns_Name req) dot)) ".").
  repeat split; try done.
  rewrite Hname, TrimSpace_labels.
  change "." with (String dot "").
  rewrite Hsplit, length_drop. lia.
Qed.

Lemma checkForSubdomains_candidate_witness :
  queue (fst (checkForSubdomains (Sample.enum []) (Sample.task [])
                (Sample.dnsreq "a.b.example.com" "example.com" "dns")))
  = (queue (Sample.task [])
     ++ [SubdomainElem {| sub_Name := "b.example.com"; sub_Domain := "example.com";
                          sub_Tag := "dns"; sub_Source := "Sample";
                          sub_Times := 1 |}])%list
  /\ exists first rest,
       "a.b.example.com" = (first ++ "." ++ rest)%string
       /\ countSep dot first = 0%nat
       /\ "b.example.com" = Go.TrimSpace rest
       /\ (2 <= length (Go.Split "a.b.example.com" dot))%nat
       /\ (length (Go.Split "example.com" dot)
           <= length (Go.Split "b.example.com" dot))%nat.
Proof.
  split; [reflexivity|].
  apply (checkForSubdomains_candidate (Sample.enum []) (Sample.task [])
           (Sample.dnsreq "a.b.example.com" "example.com" "dns")
           {| sub_Name := "b.example.com"; sub_Domain := "example.com";
              sub_Tag := "dns"; sub_Source := "Sample"; sub_Times := 1 |}).
  reflexivity.
Defined.

(** The other example of the specification: for the domain [example.com]
    the name [example.com] gives no candidate. *)
Example no_candidate_for_root :
  fst (checkForSubdomains (Sample.enum []) (Sample.task [])
         (Sample.dnsreq "example.com" "example.com" "dns"))
  = Sample.task [].
Proof. reflexivity. Qed.

(** ** timesManager *)

Lemma requestsFor_app Sub l1 l2 :
  requestsFor Sub (l1 ++ l2) = requestsFor Sub l1 + requestsFor Sub l2.
Proof. induction l1 as [|s l1 IH]; simpl; lia. Qed.

Lemma requestsFor_nonneg Sub l : 0 <= requestsFor Sub l.
Proof. induction l as [|s l IH]; simpl; [lia|]. destruct (String.eqb s Sub); lia. Qed.

Lemma requestsFor_none Sub (l : list string) :
  (forall k, l !! k <> Some Sub) -> requestsFor Sub l = 0.
Proof.
  induction l as [|s l IH]; simpl; intros Hno; [done|].
  destruct (String.eqb_spec s Sub) as [->|_].
  - by destruct (Hno 0%nat).
  - rewrite IH; [done|]. intros k. apply (Hno (S k)).
Qed.

Lemma requestsFor_take_S Sub (subs : list string) i :
  subs !! i = Some Sub ->
  requestsFor Sub (take (S i) subs) = requestsFor Sub (take i subs) + 1.
Proof.
  intros Hi. rewrite (take_S_r _ _ _ Hi), requestsFor_app. simpl.
  rewrite String.eqb_refl. lia.
Qed.

Lemma timesLoop_req m Sub events :
  timesLoop m (TimesReq Sub :: events)
  = snd (timesCase m Sub) :: timesLoop (fst (timesCase m Sub)) events.
Proof. simpl. by destruct (timesCase m Sub). Qed.

(** From any map whose counts leave room for the requests to come, the
    answer to a request is the count held for its name (0 when the map has
    no entry), plus the earlier requests for that name, plus one. *)
Lemma timesLoop_reply (subs : list string) : forall (m : gmap string Z) i Sub,
  Z.of_nat (length subs) <= Go.maxInt ->
  (forall k v, m !! k = Some v -> 0 <= v /\ v + Z.of_nat (length subs) <= Go.maxInt) ->
  subs !! i = Some Sub ->
  timesLoop m (TimesReq <$> subs) !! i
  = Some (default 0 (m !! Sub) + 1 + requestsFor Sub (take i subs)).
Proof.
  induction subs as [|s rest IH]; intros m i Sub Hlen Hm Hi; [done|].
  simpl length in *. unfold Go.maxInt in *.
  assert (Hs : timesCase m s = (<[s := default 0 (m !! s) + 1]> m,
                                default 0 (m !! s) + 1)).
  { unfold timesCase. destruct (m !! s) as [v|] eqn:Hv; simpl; [|done].
    destruct (Hm s v Hv) as [H0 Hmax]. rewrite int_small by lia. done. }
  rewrite fmap_cons, timesLoop_req, Hs. simpl fst. simpl snd.
  destruct i as [|i]; simpl in Hi.
  - injection Hi as ->. simpl. f_equal. lia.
  - simpl lookup. rewrite (IH _ i Sub); [|lia|..|done].
    + f_equal. rewrite lookup_insert. simpl take. simpl requestsFor.
      destruct (String.eqb_spec s Sub) as [->|Hne].
      * rewrite decide_True by done. simpl. lia.
      * rewrite decide_False by done. lia.
    + intros k v. rewrite lookup_insert.
      destruct (decide (s = k)) as [->|Hne].
      * intros [= <-]. destruct (m !! k) as [v|] eqn:Hv; simpl.
        -- destruct (Hm k v Hv). lia.
        -- lia.
      * intros Hv. destruct (Hm k v Hv). lia.
Qed.

(** C7: the manager, started with its empty map, answers a request for a
    name with one plus the number of earlier requests for that name. So the
    first request for a name gets 1, the next request for it gets exactly one
    more than the one before, and two requests for one name never get the
    same value. (The sequence is shorter than 2^63, the range of the Go
    int.) *)
Theorem timesManager_counts (subs : list string) :
  Z.of_nat (length subs) <= Go.maxInt ->
  let replies := timesManager (TimesReq <$> subs) in
  (forall i Sub, subs !! i = Some Sub ->
     replies !! i = Some (1 + requestsFor Sub (take i subs)))
  /\ (forall i Sub, subs !! i = Some Sub ->
        (forall k, (k < i)%nat -> subs !! k <> Some Sub) ->
        replies !! i = Some 1)
  /\ (forall i j Sub ti tj, (i < j)%nat ->
        subs !! i = Some Sub -> subs !! j = Some Sub ->
        (forall k, (i < k < j)%nat -> subs !! k <> Some Sub) ->
        replies !! i = Some ti -> replies !! j = Some tj -> tj = ti + 1)
  /\ (forall i j Sub ti tj, (i < j)%nat ->
        subs !! i = Some Sub -> subs !! j = Some Sub ->
        replies !! i = Some ti -> replies !! j = Some tj -> ti < tj).
Proof.
  intros Hlen replies.
  assert (Hreply : forall i Sub, subs !! i = Some Sub ->
            replies !! i = Some (1 + requestsFor Sub (take i subs))).
  { intros i Sub Hi. unfold replies, timesManager.
    rewrite (timesLoop_reply subs ∅ i Sub Hlen); [|by intros k v|done].
    rewrite lookup_empty. done. }
  assert (Hsplit : forall i j Sub, (i < j)%nat -> subs !! i = Some Sub ->
            requestsFor Sub (take j subs)
            = requestsFor Sub (take i subs) + 1
              + requestsFor Sub (drop (S i) (take j subs))).
  { intros i j Sub Hij Hi.
    rewrite <- (take_drop (S i) (take j subs)) at 1.
    rewrite requestsFor_app, take_take, Nat.min_l by lia.
    by rewrite (requestsFor_take_S _ _ _ Hi). }
  repeat split.
  - exact Hreply.
  - intros i Sub Hi Hfirst. rewrite (Hreply i Sub Hi). f_equal.
    rewrite requestsFor_none; [done|].
    intros k Hk. destruct (decide (k < i)%nat) as [Hlt|Hge].
    + rewrite lookup_take_lt in Hk by done. by apply (Hfirst k).
    + rewrite lookup_take_ge in Hk by lia. done.
  - intros i j Sub ti tj Hij Hi Hj Hbetween Hti Htj.
    rewrite (Hreply i Sub Hi) in Hti. rewrite (Hreply j Sub Hj) in Htj.
    injection Hti as <-. injection Htj as <-.
    rewrite (Hsplit i j Sub Hij Hi).
    rewrite (requestsFor_none Sub (drop (S i) (take j subs))); [lia|].
    intros k Hk. rewrite lookup_drop in Hk.
    destruct (decide (S i + k < j)%nat) as [Hlt|Hge].
    + rewrite lookup_take_lt in Hk by done. apply (Hbetween (S i + k)%nat); [lia|done].
    + rewrite lookup_take_ge in Hk by lia. done.
  - intros i j Sub ti tj Hij Hi Hj Hti Htj.
    rewrite (Hreply i Sub Hi) in Hti. rewrite (Hreply j Sub Hj) in Htj.
    injection Hti as <-. injection Htj as <-.
    rewrite (Hsplit i j Sub Hij Hi).
    pose proof (requestsFor_nonneg Sub (drop (S i) (take j subs))). lia.
Qed.

Lemma timesManager_counts_witness :
  Z.of_nat (length ["b.example.com"; "c.example.com"; "b.example.com"]) <= Go.maxInt
  /\ timesManager (TimesReq <$> ["b.example.com"; "c.example.com"; "b.example.com"]) !! 2%nat
     = Some (1 + requestsFor "b.example.com"
                   (take 2 ["b.example.com"; "c.example.com"; "b.example.com"])).
Proof.
  assert (Hlen : Z.of_nat (length ["b.example.com"; "c.example.com"; "b.example.com"])
                 <= Go.maxInt) by (by vm_compute).
  split; [exact Hlen|].
  apply (proj1 (timesManager_counts
                  ["b.example.com"; "c.example.com"; "b.example.com"] Hlen)
           2%nat "b.example.com").
  reflexivity.
Defined.

(** The manager stops at the close of [done]: requests that come after it
    get no answer. *)
Example timesManager_done :
  timesManager [TimesReq "a"; TimesReq "b"; TimesReq "a"; TimesDone; TimesReq "a"]
  = [1; 1; 2].
Proof. reflexivity. Qed.

(** ** The ticker case of processDupNames *)

Section Tick.

Context {G : Type} `{Graph G}.
Variable uuid : string.
Variable now : Z.

Lemma scanPending_prefix (pending : list altsource) : forall (g : G) (count : Z),
  0 <= count -> count + Z.of_nat (length pending) <= Go.maxInt ->
  exists due waiting,
    pending = (due ++ waiting)%list
    /\ Forall (fun a => alt_Timestamp a + 10 * Time.Minute <= now) due
    /\ match waiting with
       | [] => True
       | a :: _ => now < alt_Timestamp a + 10 * Time.Minute
       end
    /\ scanPending uuid now pending g count
       = (fold_left (reconcile uuid) due g, count + Z.of_nat (length due)).
Proof.
  induction pending as [|a rest IH]; intros g count H0 Hmax.
  - exists [], []. simpl. repeat split; [constructor|f_equal; lia].
  - simpl scanPending. unfold Time.Before, Time.Add.
    destruct (Z.ltb_spec now (alt_Timestamp a + 10 * Time.Minute)) as [Hlt|Hge].
    + exists [], (a :: rest). simpl. repeat split; [constructor|done|f_equal; lia].
    + simpl length in Hmax. unfold Go.maxInt in *.
      rewrite int_small by lia.
      destruct (IH (reconcile uuid g a) (count + 1)) as (due & waiting & -> & Hdue & Hw & Hs);
        [lia|lia|].
      exists (a :: due), waiting. simpl. repeat split; [by constructor|done|].
      rewrite Hs. f_equal. lia.
Qed.

End Tick.

(** C8: at a tick the buffer is split in two. The entries taken are the
    longest prefix whose time stamp is at least ten minutes old; they are
    handled from the head, in order: for each one [ReadNode] is asked for
    its name with the kind [fqdn], and [InsertFQDN] is called with its name,
    source and tag when the node is found; the entry is dropped otherwise,
    and the graph is touched in no other way. The first entry that is
    less than ten minutes old stays in the buffer with everything behind it,
    and the graph sees no entry of that rest: nothing is inserted before its
    time stamp plus ten minutes. (The buffer is a Go slice, so its length is
    an int.) *)
Theorem tick_takes_due_prefix {G : Type} `{Graph G}
    (uuid : string) (now : Z) (pending : list altsource) (g : G) :
  Z.of_nat (length pending) <= Go.maxInt ->
  exists due waiting,
    pending = (due ++ waiting)%list
    /\ Forall (fun a => alt_Timestamp a + 10 * Time.Minute <= now) due
    /\ match waiting with
       | [] => True
       | a :: _ => now < alt_Timestamp a + 10 * Time.Minute
       end
    /\ tick uuid now pending g
       = (fold_left
            (fun g a =>
               if ReadNode g (alt_Name a) "fqdn"
               then InsertFQDN g (alt_Name a) (alt_Source a) (alt_Tag a) uuid
               else g)
            due g,
          waiting).
Proof.
  intros Hlen.
  destruct (scanPending_prefix uuid now pending g 0) as (due & waiting & -> & Hdue & Hw & Hs);
    [lia|lia|].
  exists due, waiting. repeat split; [done|done|].
  unfold tick. rewrite Hs. unfold reconcile. f_equal.
  rewrite Z.add_0_l, Nat2Z.id. by rewrite drop_app_length.
Qed.

Lemma tick_takes_due_prefix_witness :
  Z.of_nat (length Sample.pending) <= Go.maxInt
  /\ exists due waiting,
       Sample.pending = (due ++ waiting)%list
       /\ Forall (fun a => alt_Timestamp a + 10 * Time.Minute <= 601 * Time.Second) due
       /\ match waiting with
          | [] => True
          | a :: _ => 601 * Time.Second < alt_Timestamp a + 10 * Time.Minute
          end
       /\ tick "run" (601 * Time.Second) Sample.pending Sample.graph
          = (fold_left
               (fun g a =>
                  if ReadNode g (alt_Name a) "fqdn"
                  then InsertFQDN g (alt_Name a) (alt_Source a) (alt_Tag a) "run"
                  else g)
               due Sample.graph,
             waiting).
Proof.
  assert (Hlen : Z.of_nat (length Sample.pending) <= Go.maxInt) by (by vm_compute).
  split; [exact Hlen|].
  apply (tick_takes_due_prefix "run" (601 * Time.Second) Sample.pending
           Sample.graph Hlen).
Defined.

(** The sample buffer at two ticks. After 599 s nothing is taken. After
    601 s the first two entries are taken, the first is inserted (the graph
    has its node), the second is dropped, and the third stays. *)
Example tick_before_grace :
  tick "run" (599 * Time.Second) Sample.pending Sample.graph
  = (Sample.graph, Sample.pending).
Proof. reflexivity. Qed.

Example tick_after_grace :
  tick "run" (601 * Time.Second) Sample.pending Sample.graph
  = ({| nodes := ["a.example.com"];
        inserted := [("a.example.com", "Sample", "api", "run")] |},
     drop 2 Sample.pending).
Proof. reflexivity. Qed.

(** The loop that runs after [break loop] is not a tick: it handles every
    buffered entry at once, whatever its time stamp. *)
Example flush_ignores_grace :
  flush "run" Sample.pending Sample.graph
  = {| nodes := ["a.example.com"];
       inserted := [("a.example.com", "Sample", "api", "run")] |}.
Proof. reflexivity. Qed.

(** ** The FQDN filter *)

(** The exact list filter follows the laws and has no false positive. *)
#[export] Instance listFilter_laws : FilterLaws (list string).
Proof.
  split; simpl.
  - done.
  - intros f s. by destruct (listHas f s).
  - intros f s. destruct (listHas f s) eqn:Hs; simpl; [done|].
    unfold listHas. simpl. by rewrite String.eqb_refl.
  - intros f s t Ht. destruct (listHas f s); simpl; [done|].
    unfold listHas in *. simpl. rewrite Ht. apply orb_true_r.
Qed.

#[export] Instance listFilter_exact : ExactFilter (list string).
Proof.
  split; simpl. intros f s t Hne.
  destruct (listHas f s); simpl; [done|].
  unfold listHas. simpl.
  destruct (String.eqb_spec t s) as [->|_]; [done|done].
Qed.

(** *** The keys of two requests *)

Lemma list_ascii_app s1 s2 :
  list_ascii_of_string (s1 ++ s2)
  = (list_ascii_of_string s1 ++ list_ascii_of_string s2)%list.
Proof. induction s1 as [|c s1 IH]; simpl; [done|]. by rewrite IH. Qed.

Lemma list_ascii_inj s1 s2 :
  list_ascii_of_string s1 = list_ascii_of_string s2 -> s1 = s2.
Proof.
  intros Heq. rewrite <- (string_of_list_ascii_of_string s1).
  rewrite <- (string_of_list_ascii_of_string s2). by rewrite Heq.
Qed.

(** A name and a trust bit are read back from their key: no two of them
    share one. *)
Lemma filterKey_inj name1 b1 name2 b2 :
  filterKey name1 b1 = filterKey name2 b2 -> name1 = name2 /\ b1 = b2.
Proof.
  unfold filterKey. intros Heq.
  apply (f_equal list_ascii_of_string) in Heq. rewrite !list_ascii_app in Heq.
  destruct b1, b2; simpl in Heq.
  - apply app_inv_tail in Heq. split; [by apply list_ascii_inj|done].
  - exfalso.
    change (list_ascii_of_string name1 ++ ["t"; "r"; "u"; "e"]%char)%list
      with (list_ascii_of_string name1 ++ (["t"; "r"]%char ++ ["u"]%char ++ ["e"]%char))%list in Heq.
    change (list_ascii_of_string name2 ++ ["f"; "a"; "l"; "s"; "e"]%char)%list
      with (list_ascii_of_string name2 ++ (["f"; "a"; "l"]%char ++ ["s"]%char ++ ["e"]%char))%list in Heq.
    rewrite !app_assoc in Heq.
    apply app_inj_tail in Heq as [Heq _].
    apply app_inj_tail in Heq as [_ Heq]. discriminate.
  - exfalso.
    change (list_ascii_of_string name2 ++ ["t"; "r"; "u"; "e"]%char)%list
      with (list_ascii_of_string name2 ++ (["t"; "r"]%char ++ ["u"]%char ++ ["e"]%char))%list in Heq.
    change (list_ascii_of_string name1 ++ ["f"; "a"; "l"; "s"; "e"]%char)%list
      with (list_ascii_of_string name1 ++ (["f"; "a"; "l"]%char ++ ["s"]%char ++ ["e"]%char))%list in Heq.
    rewrite !app_assoc in Heq.
    apply app_inj_tail in Heq as [Heq _].
    apply app_inj_tail in Heq as [_ Heq]. discriminate.
  - apply app_inv_tail in Heq. split; [by apply list_ascii_inj|done].
Qed.

Section FilterRuns.

Context {F : Type} `{FilterLaws F}.
Variable env : FilterEnv.

(** One call that does not replace the filter, by cases: the request is
    turned down and the filter forgets nothing, or it is accepted, and then
    its key was not in the filter, is in it now, and (for an untrusted
    request) the trusted key of its name was not in the filter either. *)
Lemma checkFilter_quiet (f : fqdnFilter F) (req : DNSRequest) :
  resets env f req = false ->
  let f' := fst (checkFilter env f req) in
  let key := filterKey (dns_Name req) (TrustedTag env (dns_Tag req)) in
  (forall k, Has (filter f) k = true -> Has (filter f') k = true)
  /\ (snd (checkFilter env f req) = None
      \/ (snd (checkFilter env f req) = Some req
          /\ Has (filter f) key = false
          /\ Has (filter f') key = true
          /\ Has (filter f) (filterKey (dns_Name req) true) = false)).
Proof.
  unfold resets, checkFilter, filterKey. intros Hq.
  destruct (Valid env req); simpl in *; [|auto].
  rewrite Hq.
  destruct (TrustedTag env (dns_Tag req)) eqn:Ht; simpl.
  - pose proof (Duplicate_Has (filter f) (dns_Name req ++ "true")) as Hd.
    pose proof (Has_Duplicate (filter f) (dns_Name req ++ "true")) as Hi.
    pose proof (Has_mono (filter f) (dns_Name req ++ "true")) as Hm.
    destruct (Duplicate (filter f) (dns_Name req ++ "true")) as [[] flt];
      simpl in *; split; auto.
  - destruct (Has (filter f) (dns_Name req ++ "true")) eqn:Htrue; simpl; [auto|].
    pose proof (Duplicate_Has (filter f) (dns_Name req ++ "false")) as Hd.
    pose proof (Has_Duplicate (filter f) (dns_Name req ++ "false")) as Hi.
    pose proof (Has_mono (filter f) (dns_Name req ++ "false")) as Hm.
    destruct (Duplicate (filter f) (dns_Name req ++ "false")) as [[] flt];
      simpl in *; split; auto.
Qed.

Lemma checkAll_cons f req rest :
  checkAll env f (req :: rest)
  = (fst (checkAll env (fst (checkFilter env f req)) rest),
     snd (checkFilter env f req)
     :: snd (checkAll env (fst (checkFilter env f req)) rest)).
Proof.
  simpl. destruct (checkFilter env f req) as [f1 out]. simpl.
  by destruct (checkAll env f1 rest).
Qed.

Lemma checkAll_app f reqs1 reqs2 :
  fst (checkAll env f (reqs1 ++ reqs2))
  = fst (checkAll env (fst (checkAll env f reqs1)) reqs2).
Proof.
  revert f. induction reqs1 as [|req rest IH]; intros f; [done|].
  rewrite <- app_comm_cons, !checkAll_cons. simpl. apply IH.
Qed.

Lemma noReset_app f reqs1 reqs2 :
  noReset env f (reqs1 ++ reqs2)
  = noReset env f reqs1 && noReset env (fst (checkAll env f reqs1)) reqs2.
Proof.
  revert f. induction reqs1 as [|req rest IH]; intros f; [done|].
  rewrite <- app_comm_cons, checkAll_cons. simpl.
  rewrite IH. by rewrite andb_assoc.
Qed.

(** As long as the filter is not replaced, a key it holds stays. *)
Lemma Has_kept f reqs k :
  noReset env f reqs = true ->
  Has (filter f) k = true ->
  Has (filter (fst (checkAll env f reqs))) k = true.
Proof.
  revert f. induction reqs as [|req rest IH]; intros f Hq Hk; [done|].
  simpl in Hq. apply andb_true_iff in Hq as [Hr Hq].
  apply negb_true_iff in Hr.
  rewrite checkAll_cons. simpl. apply IH; [done|].
  by apply (checkFilter_quiet f req Hr).
Qed.

(** With the trusted key of its name in the filter, a request is turned
    down; a valid one goes to the queue of duplicates. *)
Lemma checkFilter_known f req :
  resets env f req = false ->
  Has (filter f) (filterKey (dns_Name req) true) = true ->
  snd (checkFilter env f req) = None
  /\ (Valid env req = true -> TrustedTag env (dns_Tag req) = false ->
      checkFilter env f req
      = ({| filter := filter f; count := count f; dups := dups f ++ [req] |},
         None)).
Proof.
  unfold resets, checkFilter, filterKey. intros Hq Hk.
  destruct (Valid env req); simpl in *; [|split; [done|discriminate]].
  rewrite Hq.
  destruct (TrustedTag env (dns_Tag req)) eqn:Ht; simpl.
  - pose proof (Duplicate_Has (filter f) (dns_Name req ++ "true")) as Hd.
    rewrite Hk in Hd.
    destruct (Duplicate (filter f) (dns_Name req ++ "true")) as [dup flt].
    simpl in Hd. subst dup. split; [done|discriminate].
  - rewrite Hk. done.
Qed.

End FilterRuns.

Section FilterClaims.

Context {F : Type} `{FilterLaws F}.
Variable env : FilterEnv.

(** An accepted request leaves its key in the filter, whether or not the
    call replaced the filter first. *)
Lemma checkFilter_accepted (f : fqdnFilter F) (req req' : DNSRequest) :
  snd (checkFilter env f req) = Some req' ->
  req' = req /\ Valid env req = true
  /\ Has (filter (fst (checkFilter env f req)))
       (filterKey (dns_Name req) (TrustedTag env (dns_Tag req))) = true.
Proof.
  unfold checkFilter, filterKey.
  destruct (Valid env req); simpl; [|discriminate].
  set (f1 := if filterMaxSize env <=? count f then _ else f).
  destruct (negb (TrustedTag env (dns_Tag req)) && Has (filter f1) _);
    simpl; [discriminate|].
  pose proof (Has_Duplicate (filter f1)
                (dns_Name req ++ Go.FormatBool (TrustedTag env (dns_Tag req)))) as Hi.
  destruct (Duplicate (filter f1) _) as [[] flt]; simpl in *; [discriminate|].
  by intros [= <-].
Qed.

Lemma allowedBits_weaken t u t' u' bits :
  (t = true -> t' = true) -> (u = true -> u' = true) ->
  allowedBits t' u' bits -> allowedBits t u bits.
Proof.
  unfold allowedBits. intros Ht Hu.
  destruct t; [rewrite Ht by done; done|].
  destruct u; [rewrite Hu by done|]; destruct t', u'; intuition (subst; auto).
Qed.

Lemma acceptedBits_quiet name reqs : forall f : fqdnFilter F,
  noReset env f reqs = true ->
  allowedBits (Has (filter f) (filterKey name true))
              (Has (filter f) (filterKey name false))
              (acceptedBits env name (snd (checkAll env f reqs))).
Proof.
  induction reqs as [|req rest IH]; intros f Hq.
  - simpl. unfold allowedBits. by repeat case_match; auto.
  - simpl in Hq. apply andb_true_iff in Hq as [Hr Hq].
    apply negb_true_iff in Hr.
    rewrite checkAll_cons. cbn [snd].
    specialize (IH _ Hq).
    destruct (checkFilter_quiet env f req Hr) as [Hmono [Hnone|Hsome]].
    + rewrite Hnone. simpl.
      eapply allowedBits_weaken; [apply Hmono|apply Hmono|exact IH].
    + destruct Hsome as (-> & Hnew & Hin & Hnot). simpl.
      destruct (String.eqb_spec (dns_Name req) name) as [<-|Hne].
      * destruct (TrustedTag env (dns_Tag req)).
        -- rewrite Hin in IH. simpl in IH. rewrite IH, Hnew.
           unfold allowedBits. case_match; auto.
        -- rewrite Hin in IH. rewrite Hnot, Hnew. unfold allowedBits in *.
           destruct (Has _ (filterKey (dns_Name req) true)); [rewrite IH; auto|].
           destruct IH as [->| ->]; auto.
      * eapply allowedBits_weaken; [apply Hmono|apply Hmono|exact IH].
Qed.

End FilterClaims.

Section FilterExact.

Context {F : Type} `{FilterLaws F}.
Variable env : FilterEnv.

(** An accepted untrusted request leaves the trusted key of its name out of
    the filter. *)
Lemma checkFilter_untrusted_accepted (f : fqdnFilter F) (req req' : DNSRequest) :
  ExactFilter F ->
  snd (checkFilter env f req) = Some req' ->
  TrustedTag env (dns_Tag req) = false ->
  Has (filter (fst (checkFilter env f req))) (filterKey (dns_Name req) true) = false.
Proof.
  unfold checkFilter, filterKey. intros Hexact Hs Ht. revert Hs.
  destruct (Valid env req); simpl; [|discriminate].
  set (f1 := if filterMaxSize env <=? count f then _ else f).
  rewrite Ht. simpl.
  destruct (Has (filter f1) (dns_Name req ++ "true")) eqn:Hk; simpl; [discriminate|].
  pose proof (Has_other (filter f1) (dns_Name req ++ "false") (dns_Name req ++ "true")) as Ho.
  destruct (Duplicate (filter f1) _) as [[] flt]; simpl in *; [discriminate|].
  intros _. rewrite Ho; [done|].
  intros Heq. by destruct (filterKey_inj (dns_Name req) false (dns_Name req) true Heq).
Qed.

(** A call for another key leaves a missing key missing. *)
Lemma checkFilter_other (f : fqdnFilter F) (req : DNSRequest) (k : string) :
  ExactFilter F ->
  filterKey (dns_Name req) (TrustedTag env (dns_Tag req)) <> k ->
  Has (filter f) k = false ->
  Has (filter (fst (checkFilter env f req))) k = false.
Proof.
  unfold checkFilter, filterKey. intros Hexact Hne Hk.
  destruct (Valid env req); simpl; [|done].
  set (f1 := if filterMaxSize env <=? count f then _ else f).
  assert (Hk1 : Has (filter f1) k = false).
  { unfold f1. destruct (filterMaxSize env <=? count f); [apply Has_new|done]. }
  destruct (negb (TrustedTag env (dns_Tag req)) && Has (filter f1) _);
    simpl; [done|].
  pose proof (Has_other (filter f1)
                (dns_Name req ++ Go.FormatBool (TrustedTag env (dns_Tag req))) k Hne) as Ho.
  destruct (Duplicate (filter f1) _) as [[] flt]; simpl in *; congruence.
Qed.

Lemma checkAll_other (reqs : list DNSRequest) (k : string) :
  ExactFilter F ->
  Forall (fun req => filterKey (dns_Name req) (TrustedTag env (dns_Tag req)) <> k) reqs ->
  forall f : fqdnFilter F,
  Has (filter f) k = false ->
  Has (filter (fst (checkAll env f reqs))) k = false.
Proof.
  intros Hexact Hall. induction Hall as [|req rest Hne _ IH]; intros f Hk; [done|].
  rewrite checkAll_cons. simpl. apply IH. by apply checkFilter_other.
Qed.

(** A valid trusted request whose key is not in the filter is accepted. *)
Lemma checkFilter_trusted_new (f : fqdnFilter F) (req : DNSRequest) :
  Valid env req = true -> TrustedTag env (dns_Tag req) = true ->
  Has (filter f) (filterKey (dns_Name req) true) = false ->
  snd (checkFilter env f req) = Some req.
Proof.
  unfold checkFilter, filterKey. intros -> -> Hk. simpl.
  set (f1 := if filterMaxSize env <=? count f then _ else f).
  assert (Hk1 : Has (filter f1) (dns_Name req ++ "true") = false).
  { unfold f1. destruct (filterMaxSize env <=? count f); [apply Has_new|done]. }
  pose proof (Duplicate_Has (filter f1) (dns_Name req ++ "true")) as Hd.
  destruct (Duplicate (filter f1) _) as [dup flt]. simpl in *.
  rewrite Hd, Hk1. done.
Qed.

End FilterExact.

(** C3 (as stated, refuted): the filter is replaced by an empty one once
    [filterMaxSize] names were accepted, and then it has forgotten the
    trusted name. With [filterMaxSize] 2: the trusted [a.example.com] is
    accepted, the trusted [b.example.com] is accepted, and the untrusted
    [a.example.com] that follows is accepted too. *)
Lemma untrusted_accepted_after_reset :
  snd (checkAll (Sample.filterEnv 2) (Sample.newFilter 2)
         [Sample.aTrusted; Sample.bTrusted; Sample.aUntrusted])
  = [Some Sample.aTrusted; Some Sample.bTrusted; Some Sample.aUntrusted].
Proof. reflexivity. Qed.

(** C3 (amended): once a request for a name was accepted from a trusted
    source, and as long as the filter is not replaced, every valid untrusted
    request for that name is turned down and appended to the queue of
    duplicates, whatever requests came in between. It holds for every filter
    that follows the laws, false positives or not. *)
Theorem trusted_blocks_untrusted {F : Type} `{FilterLaws F}
    (env : FilterEnv) (f : fqdnFilter F)
    (r1 : DNSRequest) (rs : list DNSRequest) (r2 : DNSRequest) :
  snd (checkFilter env f r1) = Some r1 ->
  TrustedTag env (dns_Tag r1) = true ->
  noReset env (fst (checkFilter env f r1)) (rs ++ [r2]) = true ->
  Valid env r2 = true ->
  TrustedTag env (dns_Tag r2) = false ->
  dns_Name r2 = dns_Name r1 ->
  let f2 := fst (checkAll env (fst (checkFilter env f r1)) rs) in
  checkFilter env f2 r2
  = ({| filter := filter f2; count := count f2; dups := dups f2 ++ [r2] |}, None).
Proof.
  intros Hacc Ht1 Hq Hv2 Ht2 Hname f2.
  destruct (checkFilter_accepted env f r1 r1 Hacc) as (_ & _ & Hin).
  rewrite Ht1 in Hin.
  rewrite noReset_app in Hq. apply andb_true_iff in Hq as [Hq Hq2].
  simpl in Hq2. rewrite andb_true_r in Hq2. apply negb_true_iff in Hq2.
  apply (checkFilter_known env f2 r2 Hq2); [|done|done].
  rewrite Hname. by apply Has_kept.
Qed.

Lemma trusted_blocks_untrusted_witness :
  let env := Sample.filterEnv 10 in
  let f1 := fst (checkFilter env (Sample.newFilter 10) Sample.aTrusted) in
  let rs := [Sample.bUntrusted; Sample.bTrusted] in
  let f2 := fst (checkAll env f1 rs) in
  snd (checkFilter env (Sample.newFilter 10) Sample.aTrusted) = Some Sample.aTrusted
  /\ TrustedTag env (dns_Tag Sample.aTrusted) = true
  /\ noReset env f1 (rs ++ [Sample.aUntrusted]) = true
  /\ Valid env Sample.aUntrusted = true
  /\ TrustedTag env (dns_Tag Sample.aUntrusted) = false
  /\ dns_Name Sample.aUntrusted = dns_Name Sample.aTrusted
  /\ checkFilter env f2 Sample.aUntrusted
     = ({| filter := filter f2; count := count f2;
           dups := dups f2 ++ [Sample.aUntrusted] |}, None).
Proof.
  intros env f1 rs f2.
  repeat (split; [reflexivity|]).
  apply (trusted_blocks_untrusted env (Sample.newFilter 10) Sample.aTrusted rs
           Sample.aUntrusted); reflexivity.
Defined.

(** The filter that hashes by length follows the laws: it has no false
    negative. It has false positives: every string as long as one that was
    inserted. *)
Lemma lengthFilter_laws : @FilterLaws (list nat) lengthFilter.
Proof.
  split; simpl.
  - done.
  - done.
  - intros f s. unfold lengthHas. simpl. by rewrite Nat.eqb_refl.
  - intros f s t Ht. unfold lengthHas in *. simpl. rewrite Ht. apply orb_true_r.
Qed.

(** C9 (as stated, refuted): a Bloom filter reports strings that were never
    inserted, and a request accepted from an untrusted source can then be
    followed by a trusted request for the same name that is turned down.
    With the filter that hashes by length and no replacement of the filter:
    the untrusted [ab.example.com] is accepted, the untrusted
    [a.example.com] is accepted, and the trusted [ab.example.com] is turned
    down, because its key [ab.example.comtrue] is as long as the key
    [a.example.comfalse]. The exact filter accepts all three. *)
Lemma trusted_blocked_by_false_positive :
  @FilterLaws (list nat) lengthFilter
  /\ @noReset (list nat) lengthFilter (Sample.filterEnv 10)
       (@newFQDNFilter (list nat) lengthFilter (Sample.filterEnv 10))
       [Sample.dnsreq "ab.example.com" "example.com" "api";
        Sample.dnsreq "a.example.com" "example.com" "api";
        Sample.dnsreq "ab.example.com" "example.com" "dns"] = true
  /\ snd (@checkAll (list nat) lengthFilter (Sample.filterEnv 10)
            (@newFQDNFilter (list nat) lengthFilter (Sample.filterEnv 10))
            [Sample.dnsreq "ab.example.com" "example.com" "api";
             Sample.dnsreq "a.example.com" "example.com" "api";
             Sample.dnsreq "ab.example.com" "example.com" "dns"])
     = [Some (Sample.dnsreq "ab.example.com" "example.com" "api");
        Some (Sample.dnsreq "a.example.com" "example.com" "api");
        None]
  /\ snd (checkAll (Sample.filterEnv 10) (Sample.newFilter 10)
            [Sample.dnsreq "ab.example.com" "example.com" "api";
             Sample.dnsreq "a.example.com" "example.com" "api";
             Sample.dnsreq "ab.example.com" "example.com" "dns"])
     = [Some (Sample.dnsreq "ab.example.com" "example.com" "api");
        Some (Sample.dnsreq "a.example.com" "example.com" "api");
        Some (Sample.dnsreq "ab.example.com" "example.com" "dns")].
Proof.
  split; [exact lengthFilter_laws|]. repeat split; reflexivity.
Qed.

(** C9 (amended): between two replacements of the filter, the requests
    accepted for a name are none, one untrusted, one trusted, or one
    untrusted followed by one trusted: never more than two, and never a
    trusted one before an untrusted one. Once the filter holds both keys of
    a name, every request for it is turned down. A trusted request is judged
    on the trusted key of its name alone: when the filter is not replaced it
    is accepted exactly when the filter does not report that key, whether
    the untrusted key is there or not. These hold for every filter that
    follows the laws. For a filter without false positives, a request
    accepted from an untrusted source leaves the trusted key out, so a later
    valid trusted request for the same name is accepted, as long as no
    trusted request for the name came in between. *)
Theorem filter_accepts_untrusted_then_trusted {F : Type} `{FilterLaws F}
    (env : FilterEnv) :
  (forall (f : fqdnFilter F) reqs name,
     noReset env f reqs = true ->
     let bits := acceptedBits env name (snd (checkAll env f reqs)) in
     bits = [] \/ bits = [false] \/ bits = [true] \/ bits = [false; true])
  /\ (forall (f : fqdnFilter F) rs r,
        Has (filter f) (filterKey (dns_Name r) true) = true ->
        Has (filter f) (filterKey (dns_Name r) false) = true ->
        noReset env f (rs ++ [r]) = true ->
        snd (checkFilter env (fst (checkAll env f rs)) r) = None)
  /\ (ExactFilter F ->
      forall (f : fqdnFilter F) r1 rs r2,
        snd (checkFilter env f r1) = Some r1 ->
        TrustedTag env (dns_Tag r1) = false ->
        Forall (fun r => dns_Name r = dns_Name r1 ->
                         TrustedTag env (dns_Tag r) = false) rs ->
        Valid env r2 = true ->
        TrustedTag env (dns_Tag r2) = true ->
        dns_Name r2 = dns_Name r1 ->
        snd (checkFilter env (fst (checkAll env (fst (checkFilter env f r1)) rs)) r2)
        = Some r2)
  /\ (forall (f : fqdnFilter F) r,
        Valid env r = true ->
        TrustedTag env (dns_Tag r) = true ->
        resets env f r = false ->
        (snd (checkFilter env f r) = Some r
         <-> Has (filter f) (filterKey (dns_Name r) true) = false)).
Proof.
  split; [|split; [|split]].
  - intros f reqs name Hq bits.
    pose proof (acceptedBits_quiet env name reqs f Hq) as Hb.
    fold bits in Hb. unfold allowedBits in Hb.
    repeat case_match; intuition.
  - intros f rs r Ht _ Hq.
    rewrite noReset_app in Hq. apply andb_true_iff in Hq as [Hq Hq2].
    simpl in Hq2. rewrite andb_true_r in Hq2. apply negb_true_iff in Hq2.
    apply (checkFilter_known env _ r Hq2). by apply Has_kept.
  - intros Hexact f r1 rs r2 Hacc Ht1 Hrs Hv2 Ht2 Hname.
    apply checkFilter_trusted_new; [done|done|].
    rewrite Hname. apply checkAll_other; [done| |].
    + eapply Forall_impl; [exact Hrs|]. intros r Hr Heq.
      apply filterKey_inj in Heq as [Hn Hb].
      rewrite (Hr Hn) in Hb. discriminate.
    + by eapply checkFilter_untrusted_accepted.
  - intros f r Hv Ht Hq. split.
    + intros Hacc.
      destruct (Has (filter f) (filterKey (dns_Name r) true)) eqn:Hk; [|done].
      destruct (checkFilter_known env f r Hq Hk) as [Hnone _].
      rewrite Hnone in Hacc. discriminate.
    + intros Hk. by apply checkFilter_trusted_new.
Qed.

Lemma filter_accepts_untrusted_then_trusted_witness :
  let env := Sample.filterEnv 10 in
  let reqs := [Sample.aUntrusted; Sample.bTrusted; Sample.aTrusted;
               Sample.aUntrusted; Sample.aTrusted] in
  let f1 := fst (checkFilter env (Sample.newFilter 10) Sample.aUntrusted) in
  let f2 := fst (checkAll env f1 [Sample.bTrusted; Sample.bUntrusted]) in
  noReset env (Sample.newFilter 10) reqs = true
  /\ acceptedBits env "a.example.com" (snd (checkAll env (Sample.newFilter 10) reqs))
     = [false; true]
  /\ (let bits := acceptedBits env "a.example.com"
                    (snd (checkAll env (Sample.newFilter 10) reqs)) in
      bits = [] \/ bits = [false] \/ bits = [true] \/ bits = [false; true])
  /\ snd (checkFilter env (Sample.newFilter 10) Sample.aUntrusted)
     = Some Sample.aUntrusted
  /\ snd (checkFilter env f2 Sample.aTrusted) = Some Sample.aTrusted
  /\ snd (checkFilter env (fst (checkFilter env f2 Sample.aTrusted)) Sample.aTrusted)
     = None.
Proof.
  intros env reqs f1 f2.
  pose proof (filter_accepts_untrusted_then_trusted (F := list string) env)
    as (Hbits & Hboth & Hfirst & Hkey).
  split; [reflexivity|]. split; [reflexivity|]. split; [|split; [reflexivity|split]].
  - apply (Hbits (Sample.newFilter 10) reqs "a.example.com"). reflexivity.
  - apply (Hfirst listFilter_exact (Sample.newFilter 10) Sample.aUntrusted
             [Sample.bTrusted; Sample.bUntrusted] Sample.aTrusted);
      try reflexivity.
    repeat constructor; discriminate.
  - apply (Hboth (fst (checkFilter env f2 Sample.aTrusted)) [] Sample.aTrusted);
      reflexivity.
Defined.

(** *** The filter forgets at every value of [filterMaxSize] *)

(** A call that replaces the filter accepts its request, whatever came
    before. *)
Lemma checkFilter_at_reset {F : Type} `{FilterLaws F}
    (env : FilterEnv) (f : fqdnFilter F) (req : DNSRequest) :
  resets env f req = true -> snd (checkFilter env f req) = Some req.
Proof.
  unfold resets, checkFilter. intros [-> ->]%andb_true_iff. simpl.
  rewrite Has_new, andb_false_r.
  pose proof (Duplicate_Has (NewBloomFilter (filterMaxSize env))
                (dns_Name req ++ Go.FormatBool (TrustedTag env (dns_Tag req)))) as Hd.
  rewrite Has_new in Hd.
  destruct (Duplicate _ _) as [dup flt]. simpl in Hd. by subst dup.
Qed.

Lemma length_append s1 s2 :
  String.length (s1 ++ s2) = (String.length s1 + String.length s2)%nat.
Proof. induction s1 as [|c s1 IH]; simpl; [done|]. by rewrite IH. Qed.

Lemma length_letters n : String.length (Sample.letters n) = n.
Proof. induction n as [|n IH]; simpl; [done|]. by rewrite IH. Qed.

Lemma listHas_longer (l : list string) (k : string) :
  Forall (fun s => (String.length s < String.length k)%nat) l ->
  listHas l k = false.
Proof.
  unfold listHas. induction 1 as [|s l Hs _ IH]; simpl; [done|].
  rewrite IH, orb_false_r.
  destruct (String.eqb_spec k s) as [->|]; [lia|done].
Qed.

Section Fillers.

Variable max : Z.
Hypothesis max_int : max <= Go.maxInt.

(** Below [filterMaxSize] every filler is accepted and counted. *)
Lemma fillers_accepted (n : nat) : forall (k : nat) (f : fqdnFilter (list string)),
  0 <= count f -> count f + Z.of_nat n <= max ->
  Forall (fun s => (String.length s < 24 + k)%nat) (filter f) ->
  snd (checkAll (Sample.filterEnv max) f (Sample.filler <$> seq k n))
  = Some <$> (Sample.filler <$> seq k n)
  /\ count (fst (checkAll (Sample.filterEnv max) f (Sample.filler <$> seq k n)))
     = count f + Z.of_nat n.
Proof.
  induction n as [|n IH]; intros k f H0 Hmax Hlen.
  - simpl. split; [done|lia].
  - simpl seq. rewrite !fmap_cons, checkAll_cons.
    assert (Hstep : checkFilter (Sample.filterEnv max) f (Sample.filler k)
                    = ({| filter := (Sample.letters (20 + k) ++ "true")%string :: filter f;
                          count := count f + 1; dups := dups f |},
                       Some (Sample.filler k))).
    { unfold Sample.filler, Sample.dnsreq.
      assert (Hname : String.length (Sample.letters (20 + k)) = (20 + k)%nat)
        by apply length_letters.
      revert Hname. generalize (Sample.letters (20 + k)). intros name Hname.
      unfold checkFilter. simpl.
      destruct (Z.leb_spec max (count f)); [lia|].
      rewrite listHas_longer.
      - unfold Go.maxInt in max_int. unfold Go.int64. fold (Go.int (count f + 1)).
        by rewrite int_small by lia.
      - eapply Forall_impl; [exact Hlen|]. intros s Hs. simpl in Hs.
        rewrite length_append, Hname. simpl. lia. }
    rewrite Hstep. cbn [fst snd].
    destruct (IH (S k) {| filter := (Sample.letters (20 + k) ++ "true")%string :: filter f;
                          count := count f + 1; dups := dups f |}) as [Hout Hcount].
    + cbn [count]. lia.
    + cbn [count]. lia.
    + cbn [filter]. constructor.
      * rewrite length_append, length_letters. simpl. lia.
      * eapply Forall_impl; [exact Hlen|]. intros s Hs. simpl in Hs. lia.
    + rewrite Hout, Hcount. cbn [count]. split; [done|lia].
Qed.

(** For every value of [filterMaxSize] there is a run in which the trusted
    [a.example.com] is accepted, [filterMaxSize - 1] other names are accepted
    after it, and the untrusted [a.example.com] is then accepted again. *)
Lemma reset_forgets_trusted :
  let env := Sample.filterEnv max in
  let rs := Sample.filler <$> seq 0 (Z.to_nat (max - 1)) in
  snd (checkAll env (Sample.newFilter max)
         (Sample.aTrusted :: rs ++ [Sample.aUntrusted]))
  = Some Sample.aTrusted :: (Some <$> rs) ++ [Some Sample.aUntrusted].
Proof.
  intros env rs.
  assert (Hfirst : checkFilter env (Sample.newFilter max) Sample.aTrusted
                   = ({| filter := ["a.example.comtrue"]; count := 1; dups := [] |},
                      Some Sample.aTrusted)).
  { unfold checkFilter. simpl. by destruct (max <=? 0). }
  rewrite checkAll_cons, Hfirst. cbn [fst snd]. f_equal.
  set (f1 := {| filter := ["a.example.comtrue"]; count := 1; dups := [] |}).
  assert (Hrs : snd (checkAll env f1 rs) = Some <$> rs
                /\ max <= count (fst (checkAll env f1 rs))).
  { destruct (Z.le_gt_cases max 1) as [Hle|Hgt].
    - unfold rs. replace (Z.to_nat (max - 1)) with 0%nat by lia. simpl. done.
    - destruct (fillers_accepted (Z.to_nat (max - 1)) 0 f1) as [Hout Hcount].
      + simpl. lia.
      + simpl. lia.
      + simpl. repeat constructor.
      + fold rs env in Hout, Hcount. rewrite Hout, Hcount. simpl. split; [done|lia]. }
  destruct Hrs as [Hout Hcount].
  assert (Happ : forall reqs f, snd (checkAll env f (reqs ++ [Sample.aUntrusted]))
            = (snd (checkAll env f reqs)
               ++ [snd (checkFilter env (fst (checkAll env f reqs)) Sample.aUntrusted)])%list).
  { induction reqs as [|req rest IH]; intros f.
    - simpl. by destruct (checkFilter env f Sample.aUntrusted).
    - rewrite <- app_comm_cons, !checkAll_cons. cbn [fst snd]. by rewrite IH. }
  rewrite Happ, Hout. f_equal.
  rewrite checkFilter_at_reset; [done|].
  unfold resets. simpl. by apply Z.leb_le.
Qed.

End Fillers.

(** * Further properties *)

(** ** OutputRequests: what is delivered *)

Lemma cloneResolved_id v : cloneResolved v = v.
Proof. by destruct v. Qed.

Lemma cloneSubdomain_id v : cloneSubdomain v = v.
Proof. by destruct v. Qed.

Section DrainAll.

Variable sources : list string.
Variable num : Z.

(** A recognized element goes to every source, in order, as it is. *)
Lemma rangeSrcs_fanout e : forall count out,
  recognized e = true ->
  0 <= count -> count + Z.of_nat (length sources) < 2 ^ 63 ->
  rangeSrcs sources e count out
  = (false, count + Z.of_nat (length sources), (out ++ fanout sources e)%list).
Proof.
  unfold fanout.
  induction sources as [|src rest IH]; intros count out He H0 Hmax; simpl.
  - by rewrite Z.add_0_r, app_nil_r.
  - simpl length in Hmax.
    destruct e as [v|v| |]; try discriminate.
    + rewrite int_small by lia. rewrite IH by (done || lia).
      rewrite cloneResolved_id, <- app_assoc. simpl. do 2 f_equal. lia.
    + rewrite int_small by lia. rewrite IH by (done || lia).
      rewrite cloneSubdomain_id, <- app_assoc. simpl. do 2 f_equal. lia.
Qed.

(** The loop takes a prefix of the queue; the recognized elements of that
    prefix go to every source, and the loop ends with the queue empty or the
    capacity reached. *)
Lemma drain_spec (q : list element) : forall count out,
  0 <= count < num -> num + Z.of_nat (length sources) <= 2 ^ 63 ->
  exists taken rest,
    q = (taken ++ rest)%list
    /\ (q <> [] -> taken <> [])
    /\ drain sources num q count out
       = (count + Z.of_nat (length sources)
                  * Z.of_nat (length (List.filter recognized taken)),
          rest,
          (out ++ flat_map (fanout sources) (List.filter recognized taken))%list)
    /\ (rest = []
        \/ num <= count + Z.of_nat (length sources)
                          * Z.of_nat (length (List.filter recognized taken))).
Proof.
  induction q as [|e q IH]; intros count out Hc Hmax.
  - exists [], []. simpl. rewrite app_nil_r, Z.mul_0_r, Z.add_0_r. auto.
  - destruct (recognized e) eqn:He.
    + simpl drain. rewrite rangeSrcs_fanout by (done || lia).
      destruct (Z.leb_spec num (count + Z.of_nat (length sources))) as [Hle|Hlt].
      * exists [e], q. simpl. rewrite He. simpl. rewrite app_nil_r, Z.mul_1_r.
        repeat split; auto.
      * destruct (IH (count + Z.of_nat (length sources))
                    (out ++ fanout sources e)%list)
          as (taken & rest & -> & _ & Hd & Hstop); [lia|done|].
        exists (e :: taken), rest. simpl List.filter. rewrite He. simpl length.
        rewrite Hd. repeat split; [done| |].
        -- simpl flat_map. f_equal; [f_equal; lia|]. by rewrite <- app_assoc.
        -- destruct Hstop as [->|Hstop]; [by left|right; lia].
    + rewrite drain_unrecognized by (done || lia).
      destruct (IH count out) as (taken & rest & -> & _ & Hd & Hstop); [lia|done|].
      exists (e :: taken), rest. simpl List.filter. rewrite He. rewrite Hd. auto.
Qed.

End DrainAll.

Lemma drain_shorter sources num (q : list element) : forall count out,
  (length (snd (fst (drain sources num q count out))) <= length q)%nat.
Proof.
  induction q as [|e q IH]; intros count out; simpl; [done|].
  destruct (rangeSrcs sources e count out) as [[[] c] o].
  - specialize (IH c o). lia.
  - destruct (num <=? c); simpl; [lia|]. specialize (IH c o). lia.
Qed.

Lemma length_filter_recognized (q : list element) :
  (length (List.filter recognized q) <= length q)%nat.
Proof.
  induction q as [|e q IH]; simpl; [done|].
  destruct (recognized e); simpl; lia.
Qed.

(** X1: a drain with a positive capacity takes a prefix of the queue and
    leaves the rest. Every resolved or subdomain request of that prefix goes,
    unchanged, to every source in the order of the sources, request after
    request in the order of the queue; a request is never delivered to some of
    the sources only. The count is the number of sources times the number of
    requests delivered, and the drain ends with the queue empty or the
    capacity reached. (The capacity plus the number of sources is within the
    Go int.) *)
Theorem OutputRequests_delivers_prefix
    (enum : Enumeration) (r : subdomainTask) (num : Z) :
  0 < num -> num + Z.of_nat (length (srcs enum)) <= 2 ^ 63 ->
  exists taken rest,
    queue r = (taken ++ rest)%list
    /\ OutputRequests enum r num
       = (Z.of_nat (length (srcs enum))
          * Z.of_nat (length (List.filter recognized taken)),
          withQueue r rest,
          flat_map (fanout (srcs enum)) (List.filter recognized taken))
    /\ (rest = []
        \/ num <= Z.of_nat (length (srcs enum))
                  * Z.of_nat (length (List.filter recognized taken))).
Proof.
  intros Hnum Hmax. unfold OutputRequests.
  destruct (Z.leb_spec num 0); [lia|].
  destruct (drain_spec (srcs enum) num (queue r) 0 [])
    as (taken & rest & Hq & _ & Hd & Hstop); [lia|done|].
  exists taken, rest. rewrite Hd. simpl. auto.
Qed.

Lemma OutputRequests_delivers_prefix_witness :
  0 < 4
  /\ 4 + Z.of_nat (length (srcs (Sample.enum ["src1"; "src2"]))) <= 2 ^ 63
  /\ exists taken rest,
       queue (Sample.task [ResolvedElem (Sample.resolved "a.example.com");
                           ForeignElem "other";
                           ResolvedElem (Sample.resolved "b.example.com");
                           ResolvedElem (Sample.resolved "c.example.com")])
       = (taken ++ rest)%list
       /\ OutputRequests (Sample.enum ["src1"; "src2"])
            (Sample.task [ResolvedElem (Sample.resolved "a.example.com");
                          ForeignElem "other";
                          ResolvedElem (Sample.resolved "b.example.com");
                          ResolvedElem (Sample.resolved "c.example.com")]) 4
          = (Z.of_nat (length (srcs (Sample.enum ["src1"; "src2"])))
             * Z.of_nat (length (List.filter recognized taken)),
             withQueue
               (Sample.task [ResolvedElem (Sample.resolved "a.example.com");
                             ForeignElem "other";
                             ResolvedElem (Sample.resolved "b.example.com");
                             ResolvedElem (Sample.resolved "c.example.com")]) rest,
             flat_map (fanout (srcs (Sample.enum ["src1"; "src2"])))
               (List.filter recognized taken))
       /\ (rest = []
           \/ 4 <= Z.of_nat (length (srcs (Sample.enum ["src1"; "src2"])))
                   * Z.of_nat (length (List.filter recognized taken))).
Proof.
  split; [lia|]. split; [simpl; lia|].
  apply (OutputRequests_delivers_prefix (Sample.enum ["src1"; "src2"])
           (Sample.task [ResolvedElem (Sample.resolved "a.example.com");
                         ForeignElem "other";
                         ResolvedElem (Sample.resolved "b.example.com");
                         ResolvedElem (Sample.resolved "c.example.com")]) 4);
    simpl; lia.
Defined.

(** X2: when the capacity is larger than the number of sources times the
    length of the queue, one drain empties the queue and delivers every
    resolved and subdomain request in it to every source. *)
Theorem OutputRequests_drains_all
    (enum : Enumeration) (r : subdomainTask) (num : Z) :
  Z.of_nat (length (srcs enum)) * Z.of_nat (length (queue r)) < num ->
  num + Z.of_nat (length (srcs enum)) <= 2 ^ 63 ->
  OutputRequests enum r num
  = (Z.of_nat (length (srcs enum))
     * Z.of_nat (length (List.filter recognized (queue r))),
     withQueue r [],
     flat_map (fanout (srcs enum)) (List.filter recognized (queue r))).
Proof.
  intros Hbig Hmax. unfold OutputRequests.
  destruct (Z.leb_spec num 0); [lia|].
  destruct (drain_spec (srcs enum) num (queue r) 0 [])
    as (taken & rest & Hq & _ & Hd & Hstop); [lia|done|].
  rewrite Hd. simpl.
  assert (rest = []) as ->.
  { destruct Hstop as [->|Hstop]; [done|]. exfalso.
    pose proof (length_filter_recognized taken) as Hf.
    rewrite Hq, length_app in Hbig. simpl in Hstop. nia. }
  rewrite app_nil_r in Hq. by rewrite Hq.
Qed.

Lemma OutputRequests_drains_all_witness :
  Z.of_nat (length (srcs (Sample.enum ["src1"; "src2"; "src3"])))
  * Z.of_nat (length (queue (Sample.task
       [ResolvedElem (Sample.resolved "a.example.com");
        ResolvedElem (Sample.resolved "b.example.com")]))) < 10
  /\ 10 + Z.of_nat (length (srcs (Sample.enum ["src1"; "src2"; "src3"]))) <= 2 ^ 63
  /\ fst (fst (OutputRequests (Sample.enum ["src1"; "src2"; "src3"])
                 (Sample.task [ResolvedElem (Sample.resolved "a.example.com");
                               ResolvedElem (Sample.resolved "b.example.com")]) 10))
     = 6.
Proof.
  assert (H1 : Z.of_nat (length (srcs (Sample.enum ["src1"; "src2"; "src3"])))
               * Z.of_nat (length (queue (Sample.task
                    [ResolvedElem (Sample.resolved "a.example.com");
                     ResolvedElem (Sample.resolved "b.example.com")]))) < 10)
    by (simpl; lia).
  assert (H2 : 10 + Z.of_nat (length (srcs (Sample.enum ["src1"; "src2"; "src3"])))
               <= 2 ^ 63) by (simpl; lia).
  split; [exact H1|]. split; [exact H2|].
  rewrite (OutputRequests_drains_all (Sample.enum ["src1"; "src2"; "src3"])
             (Sample.task [ResolvedElem (Sample.resolved "a.example.com");
                           ResolvedElem (Sample.resolved "b.example.com")]) 10 H1 H2).
  reflexivity.
Defined.

(** X3: a drain with a positive capacity on a queue that is not empty takes
    at least one element: the queue is shorter afterwards. *)
Theorem OutputRequests_progress
    (enum : Enumeration) (r : subdomainTask) (num : Z) :
  0 < num -> queue r <> [] ->
  (length (queue (snd (fst (OutputRequests enum r num)))) < length (queue r))%nat.
Proof.
  intros Hnum Hq. unfold OutputRequests.
  destruct (Z.leb_spec num 0); [lia|].
  destruct (queue r) as [|e q]; [done|]. clear Hq.
  pose proof (drain_shorter (srcs enum) num q) as Hs.
  simpl drain.
  destruct (rangeSrcs (srcs enum) e 0 []) as [[[] c] o].
  - specialize (Hs c o). destruct (drain (srcs enum) num q c o) as [[c' q'] o'].
    simpl in *. lia.
  - destruct (num <=? c); simpl; [lia|].
    specialize (Hs c o). destruct (drain (srcs enum) num q c o) as [[c' q'] o'].
    simpl in *. lia.
Qed.

Lemma OutputRequests_progress_witness :
  0 < 1
  /\ queue (Sample.task [ForeignElem "other";
                         ResolvedElem (Sample.resolved "a.example.com")]) <> []
  /\ (length (queue (snd (fst (OutputRequests (Sample.enum ["src1"])
                 (Sample.task [ForeignElem "other";
                               ResolvedElem (Sample.resolved "a.example.com")]) 1))))
      < length (queue (Sample.task [ForeignElem "other";
                         ResolvedElem (Sample.resolved "a.example.com")])))%nat.
Proof.
  split; [lia|]. split; [discriminate|].
  apply (OutputRequests_progress (Sample.enum ["src1"])
           (Sample.task [ForeignElem "other";
                         ResolvedElem (Sample.resolved "a.example.com")]) 1);
    [lia|discriminate].
Defined.

(** ** Process and checkForSubdomains: the counter and the queue *)

Lemma queuedFor_app name q1 q2 :
  queuedFor name (q1 ++ q2) = queuedFor name q1 + queuedFor name q2.
Proof.
  induction q1 as [|e q1 IH]; simpl; [done|].
  destruct e; rewrite ?IH; lia.
Qed.

(** The whole effect of [checkForSubdomains], by cases: nothing, or one
    question to the counter, one subdomain request queued and at most one
    sent. *)
Lemma checkForSubdomains_effect enum r req :
  let labels := Go.Split (dns_Name req) dot in
  let sub := Go.TrimSpace (Go.Join (drop 1 labels) ".") in
  let subreq := {| sub_Name := sub; sub_Domain := dns_Domain req;
                   sub_Tag := dns_Tag req; sub_Source := dns_Source req;
                   sub_Times := snd (timesCase (subdomains r) sub) |} in
  checkForSubdomains enum r req
  = if (2 <=? Z.of_nat (length labels))
       && (Z.of_nat (length (Go.Split (dns_Domain req) dot))
           <=? Z.of_nat (length labels) - 1)
       && negb (IsCNAMENode enum sub)
    then ({| queue := queue r ++ [SubdomainElem subreq];
             subdomains := fst (timesCase (subdomains r) sub);
             sent := sent r
                     ++ (if negb (String.eqb sub (dns_Domain req))
                            && (sub_Times subreq =? 1)
                         then [{| stage := "root"; data := subreq |}] else []) |},
          Some (DNSElem (Some req)))
    else (r, Some (DNSElem (Some req))).
Proof.
  unfold checkForSubdomains. cbv zeta.
  destruct (Z.ltb_spec (Z.of_nat (length (Go.Split (dns_Name req) dot))) 2);
    destruct (Z.leb_spec 2 (Z.of_nat (length (Go.Split (dns_Name req) dot))));
    try lia; simpl; [done|].
  destruct (Z.ltb_spec (Z.of_nat (length (Go.Split (dns_Name req) dot)) - 1)
              (Z.of_nat (length (Go.Split (dns_Domain req) dot))));
    destruct (Z.leb_spec (Z.of_nat (length (Go.Split (dns_Domain req) dot)))
                (Z.of_nat (length (Go.Split (dns_Name req) dot)) - 1));
    try lia; simpl; [done|].
  match goal with |- context [IsCNAMENode enum ?s] =>
    destruct (IsCNAMENode enum s); simpl; [done|];
    unfold timesForSubdomain;
    destruct (timesCase (subdomains r) s) as [m times]
  end.
  simpl.
  match goal with |- context [negb ?a && ?b] => destruct (negb a && b) end;
    simpl; [done|]. by rewrite app_nil_r.
Qed.

Lemma counted_weaken b b' r : b <= b' -> counted b r -> counted b' r.
Proof.
  intros Hb (Hq & Hv & Hs & Hn). repeat split; try done.
  - by apply (Hv name v).
  - specialize (Hv name v H). lia.
Qed.

(** One call of [Process] keeps the counter and the queue in step. *)
Lemma Process_counted enum r data b :
  0 <= b -> b + 1 <= Go.maxInt ->
  counted b r -> counted (b + 1) (fst (Process enum r data)).
Proof.
  intros Hb0 Hb Hinv. unfold Go.maxInt in Hb.
  assert (Hsame : counted (b + 1) r) by (apply (counted_weaken b); [lia|done]).
  unfold Process.
  destruct data as [| |[req|]|]; try exact Hsame.
  destruct (negb (IsDomainInScope enum (dns_Name req))); [exact Hsame|].
  destruct (existsb serviceLabel _); [exact Hsame|].
  rewrite checkForSubdomains_effect.
  destruct Hsame as (Hq & Hv & Hs & Hn).
  match goal with |- context [if ?c then _ else _] => destruct c end; cbn [fst].
  2: { unfold counted, Append. cbn [queue subdomains sent].
       split; [|done]. intros name.
       rewrite queuedFor_app. simpl. rewrite Hq. lia. }
  cbn [Append queue subdomains sent].
  set (sub := Go.TrimSpace (Go.Join (drop 1 (Go.Split (dns_Name req) dot)) ".")).
  set (m := subdomains r).
  assert (Htimes : timesCase m sub
                   = (<[sub := queuedFor sub (queue r) + 1]> m,
                      queuedFor sub (queue r) + 1)).
  { unfold timesCase. specialize (Hq sub). fold m in Hq.
    destruct (m !! sub) as [v|] eqn:Hm; simpl in Hq; rewrite <- Hq; [|done].
    destruct Hinv as (_ & Hv' & _). specialize (Hv' sub v Hm).
    rewrite int_small by lia. done. }
  rewrite Htimes. cbn [fst snd sub_Times].
  assert (Hpos : 0 <= queuedFor sub (queue r)).
  { rewrite <- (Hq sub). fold m. destruct (m !! sub) as [v|] eqn:Hm; simpl; [|done].
    specialize (Hv sub v Hm). lia. }
  assert (Hle : queuedFor sub (queue r) <= b).
  { rewrite <- (Hq sub). fold m. destruct (m !! sub) as [v|] eqn:Hm; simpl; [|done].
    destruct Hinv as (_ & Hv' & _). specialize (Hv' sub v Hm). lia. }
  unfold counted. cbn [queue subdomains sent].
  split; [|split; [|split]].
  - intros name. rewrite !queuedFor_app. simpl. rewrite lookup_insert.
    destruct (String.eqb_spec sub name) as [<-|Hne].
    + rewrite decide_True by done. simpl. lia.
    + rewrite decide_False by done. rewrite Hq. lia.
  - intros name v Hl. rewrite lookup_insert in Hl.
    destruct (decide (sub = name)); [|by apply (Hv name v)].
    injection Hl as <-. lia.
  - intros s Hin. rewrite lookup_insert.
    destruct (decide (sub = sub_Name (data s))) as [|Hne]; [done|].
    apply in_app_or in Hin as [Hin|Hin]; [by apply Hs|].
    destruct (negb _ && _); [|done]. destruct Hin as [<-|[]]. done.
  - rewrite map_app. apply NoDup_app. split; [done|]. split.
    + intros name Hname.
      destruct (negb _ && (queuedFor sub (queue r) + 1 =? 1)) eqn:Hc;
        [|by inversion 1].
      apply andb_true_iff in Hc as [_ Hone%Z.eqb_eq].
      simpl. intros Hin%list_elem_of_singleton. subst name.
      apply list_elem_of_In, in_map_iff in Hname as (s & Hsn & Hin).
      destruct (Hs s Hin) as [v Hm]. rewrite Hsn in Hm.
      pose proof (Hq sub) as Hqs. rewrite Hm in Hqs. simpl in Hqs.
      specialize (Hv sub v Hm). lia.
    + destruct (negb _ && _); simpl; [|constructor].
      apply NoDup_singleton.
Qed.

Lemma processAll_cons enum r d rest :
  processAll enum r (d :: rest)
  = (fst (processAll enum (fst (Process enum r d)) rest),
     snd (Process enum r d) :: snd (processAll enum (fst (Process enum r d)) rest)).
Proof.
  simpl. destruct (Process enum r d) as [r1 out]. simpl.
  by destruct (processAll enum r1 rest).
Qed.

Lemma processAll_counted enum datas : forall r b,
  0 <= b -> b + Z.of_nat (length datas) <= Go.maxInt ->
  counted b r ->
  counted (b + Z.of_nat (length datas)) (fst (processAll enum r datas)).
Proof.
  induction datas as [|d rest IH]; intros r b Hb0 Hb Hinv.
  - simpl. by rewrite Z.add_0_r.
  - rewrite processAll_cons. cbn [fst]. simpl length in *.
    replace (b + Z.of_nat (S (length rest))) with (b + 1 + Z.of_nat (length rest)) by lia.
    apply IH; [lia|lia|]. apply Process_counted; [done|lia|done].
Qed.

Lemma counted_new : counted 0 newSubdomainTask.
Proof.
  unfold counted, newSubdomainTask. cbn [queue subdomains sent].
  split; [|split; [|split]].
  - intros name. by rewrite lookup_empty.
  - intros name v. by rewrite lookup_empty.
  - intros s [].
  - constructor.
Qed.

(** X4: after any sequence of calls of [Process] on a new task, the count
    that the counter holds for a name is the number of subdomain requests
    queued for that name (and 0, no entry, for a name never queued): the
    counter is asked once for each subdomain request queued and never
    otherwise. (Fewer than 2^63 calls.) *)
Theorem processAll_count_is_queued
    (enum : Enumeration) (datas : list element) (name : string) :
  Z.of_nat (length datas) <= Go.maxInt ->
  let r := fst (processAll enum newSubdomainTask datas) in
  default 0 (subdomains r !! name) = queuedFor name (queue r).
Proof.
  intros Hlen r.
  destruct (processAll_counted enum datas newSubdomainTask 0) as (Hq & _);
    [lia|lia|apply counted_new|].
  apply Hq.
Qed.

Lemma processAll_count_is_queued_witness :
  let datas := [DNSElem (Some (Sample.dnsreq "a.b.example.com" "example.com" "dns"));
                DNSElem (Some (Sample.dnsreq "c.b.example.com" "example.com" "dns"));
                DNSElem (Some (Sample.dnsreq "example.com" "example.com" "dns"))] in
  Z.of_nat (length datas) <= Go.maxInt
  /\ queuedFor "b.example.com" (queue (fst (processAll (Sample.enum []) newSubdomainTask datas)))
     = 2
  /\ default 0 (subdomains (fst (processAll (Sample.enum []) newSubdomainTask datas))
                !! "b.example.com")
     = queuedFor "b.example.com"
         (queue (fst (processAll (Sample.enum []) newSubdomainTask datas))).
Proof.
  intros datas.
  assert (Hlen : Z.of_nat (length datas) <= Go.maxInt) by (by vm_compute).
  split; [exact Hlen|]. split; [reflexivity|].
  apply (processAll_count_is_queued (Sample.enum []) datas "b.example.com" Hlen).
Defined.

(** X5: over any sequence of calls of [Process] on a new task, no subdomain
    name is sent to the root stage twice. (Fewer than 2^63 calls.) *)
Theorem processAll_sends_once (enum : Enumeration) (datas : list element) :
  Z.of_nat (length datas) <= Go.maxInt ->
  NoDup (List.map (fun s => sub_Name (data s))
           (sent (fst (processAll enum newSubdomainTask datas)))).
Proof.
  intros Hlen.
  destruct (processAll_counted enum datas newSubdomainTask 0) as (_ & _ & _ & Hn);
    [lia|lia|apply counted_new|].
  exact Hn.
Qed.

Lemma processAll_sends_once_witness :
  let datas := [DNSElem (Some (Sample.dnsreq "a.b.example.com" "example.com" "dns"));
                DNSElem (Some (Sample.dnsreq "c.b.example.com" "example.com" "dns"));
                DNSElem (Some (Sample.dnsreq "d.c.b.example.com" "example.com" "dns"))] in
  Z.of_nat (length datas) <= Go.maxInt
  /\ List.map (fun s => sub_Name (data s))
       (sent (fst (processAll (Sample.enum []) newSubdomainTask datas)))
     = ["b.example.com"; "c.b.example.com"]
  /\ NoDup (List.map (fun s => sub_Name (data s))
              (sent (fst (processAll (Sample.enum []) newSubdomainTask datas)))).
Proof.
  intros datas.
  assert (Hlen : Z.of_nat (length datas) <= Go.maxInt) by (by vm_compute).
  split; [exact Hlen|]. split; [reflexivity|].
  apply (processAll_sends_once (Sample.enum []) datas Hlen).
Defined.

Lemma serviceLabel_spec label :
  serviceLabel label = true <-> label = "_tcp" \/ label = "_udp" \/ label = "_tls".
Proof.
  unfold serviceLabel. rewrite !orb_true_iff, !String.eqb_eq. tauto.
Qed.

(** X6: [Process] returns nil or the data it was given, nothing else. It
    returns nil exactly for the nil request, for a name out of scope and for
    a name with one of the labels [_tcp], [_udp], [_tls]; and a call that
    returns nil leaves the task as it was: nothing queued, counted or
    sent. *)
Theorem Process_nil (enum : Enumeration) (r : subdomainTask) (data : element) :
  (snd (Process enum r data) = None \/ snd (Process enum r data) = Some data)
  /\ (snd (Process enum r data) = None -> fst (Process enum r data) = r)
  /\ (snd (Process enum r data) = None <->
      data = DNSElem None
      \/ exists req,
           data = DNSElem (Some req)
           /\ (IsDomainInScope enum (dns_Name req) = false
               \/ exists label,
                    In label (Go.Split (dns_Name req) dot)
                    /\ (label = "_tcp" \/ label = "_udp" \/ label = "_tls"))).
Proof.
  unfold Process.
  destruct data as [v|v|[req|]|l]; simpl.
  1, 2, 5: split; [auto|split; [done|]]; split; [done|];
    intros [?|(req & ? & _)]; discriminate.
  2: { split; [auto|split; [done|]]. split; auto. }
  destruct (IsDomainInScope enum (dns_Name req)) eqn:Hscope; simpl.
  2: { split; [auto|split; [done|]]. split; [|done]. intros _. right. eauto. }
  destruct (existsb serviceLabel (Go.Split (dns_Name req) dot)) eqn:Hlab; simpl.
  { split; [auto|split; [done|]]. split; [|done]. intros _. right.
    exists req. split; [done|]. right.
    apply existsb_exists in Hlab as (label & Hin & Hl).
    exists label. split; [done|]. by apply serviceLabel_spec. }
  match goal with |- context [checkForSubdomains enum ?r1 req] =>
    destruct (checkForSubdomains_cases enum r1 req) as [Hret _]; rewrite Hret
  end.
  split; [auto|split; [done|]]. split; [done|].
  intros [?|(req' & [= <-] & [?|(label & Hin & Hl)])]; [done|congruence|].
  assert (existsb serviceLabel (Go.Split (dns_Name req) dot) = true); [|congruence].
  apply existsb_exists. exists label. split; [done|]. by apply serviceLabel_spec.
Qed.

Lemma Process_nil_witness :
  snd (Process (Sample.enum []) newSubdomainTask
         (DNSElem (Some (Sample.dnsreq "_tcp.example.com" "example.com" "dns"))))
  = None
  /\ fst (Process (Sample.enum []) newSubdomainTask
            (DNSElem (Some (Sample.dnsreq "_tcp.example.com" "example.com" "dns"))))
     = newSubdomainTask.
Proof.
  assert (Hnil : snd (Process (Sample.enum []) newSubdomainTask
                   (DNSElem (Some (Sample.dnsreq "_tcp.example.com" "example.com" "dns"))))
                 = None) by reflexivity.
  split; [exact Hnil|].
  apply (proj1 (proj2 (Process_nil (Sample.enum []) newSubdomainTask
           (DNSElem (Some (Sample.dnsreq "_tcp.example.com" "example.com" "dns")))))
           Hnil).
Defined.

(** X7: [checkForSubdomains] queues a subdomain request exactly when the name
    has two labels or more, the name without its first label has at least as
    many labels as the domain, and the candidate is not a CNAME node of the
    graph. The candidate is then the rest of the name without the white space
    around it, and it has exactly one label fewer than the name. In every
    other case the task stays as it was. *)
Theorem checkForSubdomains_queues_iff
    (enum : Enumeration) (r : subdomainTask) (req : DNSRequest) :
  let labels := Go.Split (dns_Name req) dot in
  let sub := Go.TrimSpace (Go.Join (drop 1 labels) ".") in
  let r' := fst (checkForSubdomains enum r req) in
  let cond := (2 <= length labels)%nat
              /\ (length (Go.Split (dns_Domain req) dot) <= length labels - 1)%nat
              /\ IsCNAMENode enum sub = false in
  (cond <-> exists subreq, queue r' = (queue r ++ [SubdomainElem subreq])%list)
  /\ (forall subreq,
        queue r' = (queue r ++ [SubdomainElem subreq])%list ->
        sub_Name subreq = sub
        /\ length (Go.Split (sub_Name subreq) dot) = (length labels - 1)%nat)
  /\ (~ cond -> r' = r).
Proof.
  intros labels sub r' cond.
  pose proof (checkForSubdomains_effect enum r req) as Heff. cbv zeta in Heff.
  fold labels sub in Heff.
  assert (Hb : (2 <=? Z.of_nat (length labels))
               && (Z.of_nat (length (Go.Split (dns_Domain req) dot))
                   <=? Z.of_nat (length labels) - 1)
               && negb (IsCNAMENode enum sub) = true <-> cond).
  { unfold cond. rewrite !andb_true_iff, negb_true_iff, !Z.leb_le. 
    split; intros ((H1 & H2) & H3) || intros (H1 & H2 & H3); repeat split; try done; lia. }
  destruct (_ && _ && _) eqn:Hc in Heff.
  - assert (Hcond : cond) by (apply Hb; exact Hc).
    unfold r'. rewrite Heff. cbn [fst queue].
    split; [split; [eauto|done]|]. split; [|done].
    intros subreq Hq. apply app_inv_head in Hq. injection Hq as <-.
    cbn [sub_Name]. split; [done|].
    destruct Hcond as (H2 & _).
    destruct (Split_drop dot (dns_Name req) H2) as (first & _ & _ & Hsplit).
    unfold sub, labels. rewrite TrimSpace_labels.
    change "." with (String dot ""). rewrite Hsplit, length_drop. done.
  - assert (Hcond : ~ cond) by (rewrite <- Hb, Hc; discriminate).
    unfold r'. rewrite Heff. cbn [fst].
    split; [split; [done|]|].
    + intros (subreq & Hq). by apply app_one_neq in Hq.
    + split; [|done]. intros subreq Hq. by apply app_one_neq in Hq.
Qed.

Lemma checkForSubdomains_queues_iff_witness :
  let req := Sample.dnsreq "www.a.b.example.com" "example.com" "dns" in
  let r' := fst (checkForSubdomains (Sample.enum []) newSubdomainTask req) in
  ((2 <= length (Go.Split (dns_Name req) dot))%nat
   /\ (length (Go.Split (dns_Domain req) dot)
       <= length (Go.Split (dns_Name req) dot) - 1)%nat
   /\ IsCNAMENode (Sample.enum [])
        (Go.TrimSpace (Go.Join (drop 1 (Go.Split (dns_Name req) dot)) ".")) = false)
  /\ exists subreq,
       queue r' = (queue newSubdomainTask ++ [SubdomainElem subreq])%list.
Proof.
  intros req r'.
  assert (Hcond : (2 <= length (Go.Split (dns_Name req) dot))%nat
     /\ (length (Go.Split (dns_Domain req) dot)
         <= length (Go.Split (dns_Name req) dot) - 1)%nat
     /\ IsCNAMENode (Sample.enum [])
          (Go.TrimSpace (Go.Join (drop 1 (Go.Split (dns_Name req) dot)) ".")) = false).
  { repeat split; simpl; lia. }
  split; [exact Hcond|].
  apply (proj1 (proj1 (checkForSubdomains_queues_iff (Sample.enum [])
                         newSubdomainTask req)) Hcond).
Defined.

(** ** checkFilter: the count and the queue of duplicates *)

Section FilterCount.

Context {F : Type} `{Filter F}.
Variable env : FilterEnv.
Hypothesis max_int : filterMaxSize env <= Go.maxInt.

(** The value of [f.count] after one call, without the wrap-around: the
    count after the test of [filterMaxSize], plus one for a request that is
    returned. *)
Lemma checkFilter_count (f : fqdnFilter F) (req : DNSRequest) :
  0 <= count f <= Z.max 1 (filterMaxSize env) ->
  let f' := fst (checkFilter env f req) in
  0 <= count f' <= Z.max 1 (filterMaxSize env)
  /\ count f'
     = (if resets env f req then 0 else count f)
       + (match snd (checkFilter env f req) with Some _ => 1 | None => 0 end).
Proof.
  unfold resets, checkFilter. intros Hc. unfold Go.maxInt in max_int.
  destruct (Valid env req); simpl; [|lia].
  destruct (Z.leb_spec (filterMaxSize env) (count f)) as [Hle|Hlt]; simpl.
  - destruct (negb _ && Has _ _); simpl; [lia|].
    destruct (Duplicate _ _) as [[] flt]; simpl; [lia|].
    unfold Go.int64. fold (Go.int (0 + 1)). rewrite int_small by lia. lia.
  - destruct (negb _ && Has _ _); simpl; [lia|].
    destruct (Duplicate _ _) as [[] flt]; simpl; [lia|].
    unfold Go.int64. fold (Go.int (count f + 1)). rewrite int_small by lia. lia.
Qed.

Lemma checkAll_count (reqs : list DNSRequest) : forall f : fqdnFilter F,
  0 <= count f <= Z.max 1 (filterMaxSize env) ->
  0 <= count (fst (checkAll env f reqs)) <= Z.max 1 (filterMaxSize env)
  /\ (noReset env f reqs = true ->
      count (fst (checkAll env f reqs))
      = count f + Z.of_nat (length (returned (snd (checkAll env f reqs))))).
Proof.
  induction reqs as [|req rest IH]; intros f Hc.
  - simpl. split; [done|]. intros _. lia.
  - rewrite checkAll_cons. cbn [fst snd].
    destruct (checkFilter_count f req Hc) as [Hc1 Heq].
    destruct (IH _ Hc1) as [Hc2 Hq2]. split; [done|].
    simpl. intros [Hr Hq]%andb_true_iff. apply negb_true_iff in Hr.
    rewrite (Hq2 Hq), Heq, Hr.
    destruct (snd (checkFilter env f req)); simpl length; lia.
Qed.

End FilterCount.

(** X9: the count of the filter stays between 0 and [filterMaxSize] (or 1,
    when [filterMaxSize] is smaller) through any run that starts with a new
    filter, so the [int64] it is kept in never wraps around; and in a run
    that does not replace the filter, the count grows by exactly the number
    of requests returned. ([filterMaxSize] is an [int64].) *)
Theorem checkAll_count_bounded {F : Type} `{Filter F}
    (env : FilterEnv) (reqs : list DNSRequest) :
  filterMaxSize env <= Go.maxInt ->
  let run := checkAll env (newFQDNFilter env) reqs in
  0 <= count (fst run) <= Z.max 1 (filterMaxSize env)
  /\ (noReset env (newFQDNFilter env) reqs = true ->
      count (fst run) = Z.of_nat (length (returned (snd run)))).
Proof.
  intros Hmax run.
  destruct (checkAll_count env Hmax reqs (newFQDNFilter env)) as [Hc Hq].
  { simpl. lia. }
  split; [exact Hc|]. intros Hquiet. unfold run. rewrite (Hq Hquiet). simpl. lia.
Qed.

Lemma checkAll_count_bounded_witness :
  let env := Sample.filterEnv 2 in
  let reqs := [Sample.aTrusted; Sample.aUntrusted; Sample.bTrusted;
               Sample.bUntrusted; Sample.aTrusted] in
  filterMaxSize env <= Go.maxInt
  /\ count (fst (checkAll env (Sample.newFilter 2) reqs)) = 2
  /\ 0 <= count (fst (checkAll env (Sample.newFilter 2) reqs))
     <= Z.max 1 (filterMaxSize env).
Proof.
  intros env reqs.
  assert (Hmax : filterMaxSize env <= Go.maxInt) by (by vm_compute).
  split; [exact Hmax|]. split; [reflexivity|].
  apply (proj1 (checkAll_count_bounded (F := list string) env reqs Hmax)).
Defined.

(** X10: in any run of [checkFilter], every request gets one of three ends.
    It is returned as it is, and then it was valid; or it is valid, not
    returned, and appended to the queue of duplicates; or it is not valid and
    leaves no trace. The queue of duplicates grows by exactly the valid
    requests that were not returned, in the order of their arrival. *)
Theorem checkAll_duplicates {F : Type} `{Filter F}
    (env : FilterEnv) (f : fqdnFilter F) (reqs : list DNSRequest) :
  let run := checkAll env f reqs in
  dups (fst run) = (dups f ++ turnedDown env reqs (snd run))%list
  /\ Forall2 (fun req out => out = None \/ (out = Some req /\ Valid env req = true))
       reqs (snd run).
Proof.
  cbv zeta. revert f. induction reqs as [|req rest IH]; intros f.
  - simpl. by rewrite app_nil_r.
  - rewrite checkAll_cons. cbn [fst snd].
    destruct (IH (fst (checkFilter env f req))) as [Hd Hall]. rewrite Hd.
    assert (Hstep : (snd (checkFilter env f req) = None
                     /\ dups (fst (checkFilter env f req))
                        = (dups f ++ if Valid env req then [req] else [])%list)
                    \/ (snd (checkFilter env f req) = Some req
                        /\ Valid env req = true
                        /\ dups (fst (checkFilter env f req)) = dups f)).
    { unfold checkFilter.
      destruct (Valid env req); simpl; [|left; by rewrite app_nil_r].
      destruct (filterMaxSize env <=? count f); simpl.
      all: destruct (negb _ && Has _ _); simpl; [by left|].
      all: destruct (Duplicate _ _) as [[] flt]; simpl; [by left|by right]. }
    destruct Hstep as [[Hn Hdup]|(Hs & Hv & Hdup)].
    + rewrite Hn, Hdup. split; [|constructor; auto]. simpl.
      destruct (Valid env req); simpl; by rewrite <- app_assoc.
    + rewrite Hs, Hdup. split; [done|]. constructor; auto.
Qed.

(** ** checkFilter: one admission for a name and a tier *)

Section FilterTier.

Context {F : Type} `{FilterLaws F}.
Variable env : FilterEnv.

(** A valid request whose own key is in the filter is turned down and
    queued, and the count stays. *)
Lemma checkFilter_present (f : fqdnFilter F) (req : DNSRequest) :
  resets env f req = false ->
  Valid env req = true ->
  Has (filter f) (filterKey (dns_Name req) (TrustedTag env (dns_Tag req))) = true ->
  snd (checkFilter env f req) = None
  /\ dups (fst (checkFilter env f req)) = (dups f ++ [req])%list
  /\ count (fst (checkFilter env f req)) = count f.
Proof.
  unfold resets, checkFilter, filterKey. intros Hq Hv Hk.
  rewrite Hv in *. simpl in *. rewrite Hq.
  destruct (negb _ && Has _ _); simpl; [done|].
  pose proof (Duplicate_Has (filter f)
                (dns_Name req ++ Go.FormatBool (TrustedTag env (dns_Tag req)))) as Hd.
  rewrite Hk in Hd.
  destruct (Duplicate _ _) as [dup flt]. simpl in Hd. by subst dup.
Qed.

(** A valid untrusted request is accepted when the filter has neither key
    of its name. *)
Lemma checkFilter_untrusted_new (f : fqdnFilter F) (req : DNSRequest) :
  Valid env req = true -> TrustedTag env (dns_Tag req) = false ->
  Has (filter f) (filterKey (dns_Name req) true) = false ->
  Has (filter f) (filterKey (dns_Name req) false) = false ->
  snd (checkFilter env f req) = Some req.
Proof.
  unfold checkFilter, filterKey. intros -> -> Ht Hf. simpl in *.
  set (f1 := if filterMaxSize env <=? count f then _ else f).
  assert (Hk : forall k, Has (filter f) k = false -> Has (filter f1) k = false).
  { intros k Hk. unfold f1.
    destruct (filterMaxSize env <=? count f); [apply Has_new|done]. }
  rewrite (Hk _ Ht). simpl.
  pose proof (Duplicate_Has (filter f1) (dns_Name req ++ "false")) as Hd.
  rewrite (Hk _ Hf) in Hd.
  destruct (Duplicate _ _) as [dup flt]. simpl in Hd. by subst dup.
Qed.

End FilterTier.

(** X11: one admission for a name and a tier. Once a request was returned,
    and as long as the filter is not replaced, a later valid request with the
    same name and the same trust is not returned: it goes to the queue of
    duplicates and the count stays. It holds for every filter that follows
    the laws. *)
Theorem same_tier_turned_down {F : Type} `{FilterLaws F}
    (env : FilterEnv) (f : fqdnFilter F)
    (r1 : DNSRequest) (rs : list DNSRequest) (r2 : DNSRequest) :
  snd (checkFilter env f r1) = Some r1 ->
  noReset env (fst (checkFilter env f r1)) (rs ++ [r2]) = true ->
  Valid env r2 = true ->
  dns_Name r2 = dns_Name r1 ->
  TrustedTag env (dns_Tag r2) = TrustedTag env (dns_Tag r1) ->
  let f2 := fst (checkAll env (fst (checkFilter env f r1)) rs) in
  snd (checkFilter env f2 r2) = None
  /\ dups (fst (checkFilter env f2 r2)) = (dups f2 ++ [r2])%list
  /\ count (fst (checkFilter env f2 r2)) = count f2.
Proof.
  intros Hacc Hq Hv2 Hname Htier f2.
  destruct (checkFilter_accepted env f r1 r1 Hacc) as (_ & _ & Hin).
  rewrite noReset_app in Hq. apply andb_true_iff in Hq as [Hq Hq2].
  simpl in Hq2. rewrite andb_true_r in Hq2. apply negb_true_iff in Hq2.
  apply (checkFilter_present env f2 r2 Hq2 Hv2).
  rewrite Hname, Htier. by apply Has_kept.
Qed.

Lemma same_tier_turned_down_witness :
  let env := Sample.filterEnv 10 in
  let f1 := fst (checkFilter env (Sample.newFilter 10) Sample.aUntrusted) in
  let rs := [Sample.bUntrusted; Sample.bTrusted] in
  let f2 := fst (checkAll env f1 rs) in
  snd (checkFilter env (Sample.newFilter 10) Sample.aUntrusted) = Some Sample.aUntrusted
  /\ noReset env f1 (rs ++ [Sample.aUntrusted]) = true
  /\ Valid env Sample.aUntrusted = true
  /\ dns_Name Sample.aUntrusted = dns_Name Sample.aUntrusted
  /\ TrustedTag env (dns_Tag Sample.aUntrusted) = TrustedTag env (dns_Tag Sample.aUntrusted)
  /\ snd (checkFilter env f2 Sample.aUntrusted) = None
  /\ dups (fst (checkFilter env f2 Sample.aUntrusted))
     = (dups f2 ++ [Sample.aUntrusted])%list
  /\ count (fst (checkFilter env f2 Sample.aUntrusted)) = count f2.
Proof.
  intros env f1 rs f2.
  repeat (split; [reflexivity|]).
  apply (same_tier_turned_down env (Sample.newFilter 10) Sample.aUntrusted rs
           Sample.aUntrusted); reflexivity.
Defined.

(** X12: the call that finds the count at [filterMaxSize] or above starts
    over. A valid request is then returned whatever the filter held, also a
    name that was returned just before; the count is 1 afterwards and the
    queue of duplicates is untouched. *)
Theorem checkFilter_starts_over {F : Type} `{FilterLaws F}
    (env : FilterEnv) (f : fqdnFilter F) (req : DNSRequest) :
  Valid env req = true ->
  filterMaxSize env <= count f ->
  snd (checkFilter env f req) = Some req
  /\ count (fst (checkFilter env f req)) = 1
  /\ dups (fst (checkFilter env f req)) = dups f
  /\ Has (filter (fst (checkFilter env f req)))
       (filterKey (dns_Name req) (TrustedTag env (dns_Tag req))) = true.
Proof.
  intros Hv Hle.
  assert (Hr : resets env f req = true).
  { unfold resets. rewrite Hv. by apply Z.leb_le. }
  pose proof (checkFilter_at_reset env f req Hr) as Hacc.
  destruct (checkFilter_accepted env f req req Hacc) as (_ & _ & Hin).
  split; [done|]. split; [|split; [|done]].
  - revert Hacc. unfold checkFilter. rewrite Hv. simpl.
    apply Z.leb_le in Hle. rewrite Hle. simpl.
    destruct (negb _ && Has _ _); simpl; [discriminate|].
    destruct (Duplicate _ _) as [[] flt]; simpl; [discriminate|done].
  - revert Hacc. unfold checkFilter. rewrite Hv. simpl.
    apply Z.leb_le in Hle. rewrite Hle. simpl.
    destruct (negb _ && Has _ _); simpl; [discriminate|].
    destruct (Duplicate _ _) as [[] flt]; simpl; [discriminate|done].
Qed.

Lemma checkFilter_starts_over_witness :
  let env := Sample.filterEnv 1 in
  let f := fst (checkFilter env (Sample.newFilter 1) Sample.aTrusted) in
  Valid env Sample.aTrusted = true
  /\ filterMaxSize env <= count f
  /\ snd (checkFilter env f Sample.aTrusted) = Some Sample.aTrusted
  /\ count (fst (checkFilter env f Sample.aTrusted)) = 1
  /\ dups (fst (checkFilter env f Sample.aTrusted)) = dups f
  /\ Has (filter (fst (checkFilter env f Sample.aTrusted)))
       (filterKey (dns_Name Sample.aTrusted)
          (TrustedTag env (dns_Tag Sample.aTrusted))) = true.
Proof.
  intros env f.
  split; [reflexivity|]. split; [by vm_compute|].
  apply (checkFilter_starts_over env f Sample.aTrusted); [reflexivity|by vm_compute].
Defined.

(** X13: a filter without false positives turns nothing down by mistake.
    Valid requests with names that all differ are all returned by a new
    filter, trusted or not, through any number of replacements of the
    filter. *)
Theorem distinct_names_all_returned {F : Type} `{FilterLaws F}
    (env : FilterEnv) (reqs : list DNSRequest) :
  ExactFilter F ->
  Forall (fun req => Valid env req = true) reqs ->
  NoDup (List.map dns_Name reqs) ->
  snd (checkAll env (newFQDNFilter env) reqs) = Some <$> reqs.
Proof.
  intros Hexact Hvalid Hnodup.
  assert (Hgen : forall f : fqdnFilter F,
            (forall req b, In req reqs ->
                           Has (filter f) (filterKey (dns_Name req) b) = false) ->
            snd (checkAll env f reqs) = Some <$> reqs).
  { induction reqs as [|req rest IH]; intros f Hnew; [done|].
    inversion Hvalid as [|? ? Hv Hvrest]; subst.
    simpl in Hnodup. inversion Hnodup as [|? ? Hnotin Hnd]; subst.
    rewrite checkAll_cons, fmap_cons. cbn [snd].
    assert (Hacc : snd (checkFilter env f req) = Some req).
    { destruct (TrustedTag env (dns_Tag req)) eqn:Ht.
      - apply checkFilter_trusted_new; [done|done|]. apply Hnew. by left.
      - apply checkFilter_untrusted_new; [done|done|..]; apply Hnew; by left. }
    rewrite Hacc. f_equal. apply IH; [done|done|].
    intros req' b Hin. apply checkFilter_other; [done| |].
    - intros Heq. apply filterKey_inj in Heq as [Hn _].
      apply Hnotin. rewrite Hn. by apply list_elem_of_In, in_map.
    - apply Hnew. by right. }
  apply Hgen. intros req b _. simpl. apply Has_new.
Qed.

Lemma distinct_names_all_returned_witness :
  let env := Sample.filterEnv 2 in
  let reqs := [Sample.aUntrusted; Sample.bTrusted; Sample.filler 0; Sample.filler 1] in
  Forall (fun req => Valid env req = true) reqs
  /\ NoDup (List.map dns_Name reqs)
  /\ snd (checkAll env (Sample.newFilter 2) reqs) = Some <$> reqs.
Proof.
  intros env reqs.
  assert (Hv : Forall (fun req => Valid env req = true) reqs)
    by (repeat constructor).
  assert (Hn : NoDup (List.map dns_Name reqs)).
  { apply (bool_decide_unpack _). by vm_compute. }
  split; [exact Hv|]. split; [exact Hn|].
  apply (distinct_names_all_returned (F := list string) env reqs
           listFilter_exact Hv Hn).
Defined.

(** ** processDupNames: the ticker case *)

Section Ticks.

Context {G : Type} `{Graph G}.
Variable uuid : string.

Lemma due_spec (now : Z) (a : altsource) :
  due now a = true <-> alt_Timestamp a + 10 * Time.Minute <= now.
Proof.
  unfold due, Time.Before, Time.Add. rewrite negb_true_iff. apply Z.ltb_ge.
Qed.

Lemma not_due_spec (now : Z) (a : altsource) :
  due now a = false <-> now < alt_Timestamp a + 10 * Time.Minute.
Proof.
  unfold due, Time.Before, Time.Add. rewrite negb_false_iff. apply Z.ltb_lt.
Qed.

(** What a tick takes and what it leaves, in terms of [due]. *)
Lemma tick_parts (now : Z) (pending : list altsource) (g : G) :
  Z.of_nat (length pending) <= Go.maxInt ->
  exists taken waiting,
    pending = (taken ++ waiting)%list
    /\ Forall (fun a => due now a = true) taken
    /\ match waiting with
       | [] => True
       | a :: _ => due now a = false
       end
    /\ tick uuid now pending g = (flush uuid taken g, waiting).
Proof.
  intros Hlen.
  destruct (scanPending_prefix uuid now pending g 0)
    as (taken & waiting & -> & Htaken & Hw & Hs); [lia|lia|].
  exists taken, waiting. split; [done|]. split; [|split].
  - eapply Forall_impl; [exact Htaken|]. intros a Ha. by apply due_spec.
  - destruct waiting as [|a w]; [done|]. by apply not_due_spec.
  - unfold tick. rewrite Hs. unfold flush. f_equal.
    rewrite Z.add_0_l, Nat2Z.id. by rewrite drop_app_length.
Qed.

End Ticks.

Lemma StronglySorted_app_r (l1 l2 : list Z) :
  StronglySorted Z.le (l1 ++ l2) -> StronglySorted Z.le l2.
Proof.
  induction l1 as [|x l1 IH]; [done|].
  simpl. intros Hs. apply IH. by inversion Hs.
Qed.

Lemma filter_all {A : Type} (p : A -> bool) (l : list A) :
  Forall (fun a => p a = true) l -> List.filter p l = l.
Proof.
  induction 1 as [|a l Ha _ IH]; simpl; [done|]. by rewrite Ha, IH.
Qed.

Lemma filter_none {A : Type} (p : A -> bool) (l : list A) :
  Forall (fun a => p a = false) l -> List.filter p l = [].
Proof.
  induction 1 as [|a l Ha _ IH]; simpl; [done|]. by rewrite Ha, IH.
Qed.

(** X15: a tick on a buffer in the order of its time stamps. The loop stops
    at the first entry that is not due; when the time stamps do not decrease
    along the buffer no due entry is behind it: the tick handles all the
    entries that are due, in order, each one inserted in the graph when
    [ReadNode] finds its name and left out otherwise, and keeps all the
    others. *)
Theorem tick_sorted_takes_all_due {G : Type} `{Graph G} (uuid : string)
    (now : Z) (pending : list altsource) (g : G) :
  StronglySorted Z.le (alt_Timestamp <$> pending) ->
  Z.of_nat (length pending) <= Go.maxInt ->
  tick uuid now pending g
  = (fold_left
       (fun g a =>
          if ReadNode g (alt_Name a) "fqdn"
          then InsertFQDN g (alt_Name a) (alt_Source a) (alt_Tag a) uuid
          else g)
       (List.filter (due now) pending) g,
     List.filter (fun a => negb (due now a)) pending).
Proof.
  intros Hs Hlen.
  destruct (tick_parts uuid now pending g Hlen)
    as (taken & waiting & -> & Htaken & Hw & ->).
  assert (Hwait : Forall (fun a => due now a = false) waiting).
  { rewrite fmap_app in Hs. apply StronglySorted_app_r in Hs.
    destruct waiting as [|a w]; [constructor|].
    rewrite fmap_cons in Hs. inversion Hs as [|? ? _ Hall]; subst.
    constructor; [done|].
    apply not_due_spec in Hw. rewrite Forall_fmap in Hall.
    eapply Forall_impl; [exact Hall|]. intros b Hb. simpl in Hb.
    apply not_due_spec. lia. }
  rewrite !List.filter_app.
  rewrite (filter_all _ _ Htaken), (filter_none _ _ Hwait), app_nil_r.
  unfold flush, reconcile. f_equal.
  rewrite (filter_none (fun a => negb (due now a)) taken),
    (filter_all (fun a => negb (due now a)) waiting); [done| |].
  - eapply Forall_impl; [exact Hwait|]. by intros a ->.
  - eapply Forall_impl; [exact Htaken|]. by intros a ->.
Qed.

Lemma tick_sorted_takes_all_due_witness :
  StronglySorted Z.le (alt_Timestamp <$> Sample.pending)
  /\ Z.of_nat (length Sample.pending) <= Go.maxInt
  /\ tick "run" (601 * Time.Second) Sample.pending Sample.graph
     = (fold_left
          (fun g a =>
             if ReadNode g (alt_Name a) "fqdn"
             then InsertFQDN g (alt_Name a) (alt_Source a) (alt_Tag a) "run"
             else g)
          (List.filter (due (601 * Time.Second)) Sample.pending) Sample.graph,
        List.filter (fun a => negb (due (601 * Time.Second) a)) Sample.pending).
Proof.
  assert (Hs : StronglySorted Z.le (alt_Timestamp <$> Sample.pending)).
  { repeat (constructor; [|repeat constructor; by vm_compute]). constructor. }
  assert (Hlen : Z.of_nat (length Sample.pending) <= Go.maxInt) by (by vm_compute).
  split; [exact Hs|]. split; [exact Hlen|].
  apply (tick_sorted_takes_all_due "run" (601 * Time.Second) Sample.pending
           Sample.graph Hs Hlen).
Defined.

(** X16: what a tick has left, a tick at the same or an earlier instant
    leaves alone: the graph and the buffer stay as they are. *)
Theorem tick_again_takes_nothing {G : Type} `{Graph G} (uuid : string)
    (now now' : Z) (pending : list altsource) (g g' : G) :
  Z.of_nat (length pending) <= Go.maxInt ->
  now' <= now ->
  tick uuid now' (snd (tick uuid now pending g)) g'
  = (g', snd (tick uuid now pending g)).
Proof.
  intros Hlen Hle.
  destruct (tick_parts uuid now pending g Hlen)
    as (taken & waiting & _ & _ & Hw & ->).
  cbn [snd]. destruct waiting as [|a w]; [done|].
  apply not_due_spec in Hw.
  unfold tick. simpl scanPending. unfold Time.Before, Time.Add.
  destruct (Z.ltb_spec now' (alt_Timestamp a + 10 * Time.Minute)); [done|lia].
Qed.

Lemma tick_again_takes_nothing_witness :
  let left := snd (tick "run" (601 * Time.Second) Sample.pending Sample.graph) in
  Z.of_nat (length Sample.pending) <= Go.maxInt
  /\ 601 * Time.Second <= 601 * Time.Second
  /\ tick "run" (601 * Time.Second) left Sample.graph = (Sample.graph, left).
Proof.
  intros left.
  assert (Hlen : Z.of_nat (length Sample.pending) <= Go.maxInt) by (by vm_compute).
  assert (Hle : 601 * Time.Second <= 601 * Time.Second) by lia.
  split; [exact Hlen|]. split; [exact Hle|].
  apply (tick_again_takes_nothing "run" (601 * Time.Second) (601 * Time.Second)
           Sample.pending Sample.graph Sample.graph Hlen Hle).
Defined.

(** ** processDupNames: the goroutine and the shared graph *)

Section DupNames.

Variable uuid : string.
Variable found : nat -> bool.

Lemma reads_app (calls1 calls2 : list graphCall) :
  reads (calls1 ++ calls2) = (reads calls1 + reads calls2)%nat.
Proof. unfold reads. by rewrite List.filter_app, length_app. Qed.

Lemma reads_entryCalls (k : nat) (a : altsource) :
  reads (entryCalls uuid found k a) = 1%nat.
Proof. unfold entryCalls, reads. by destruct (found k). Qed.

Lemma reconcileShared_calls (calls : list graphCall) (a : altsource) :
  reconcileShared uuid found calls a
  = (calls ++ entryCalls uuid found (reads calls) a)%list.
Proof.
  unfold reconcileShared, entryCalls.
  destruct (found (reads calls)); [|done]. by rewrite <- app_assoc.
Qed.

Lemma flushShared_app (l1 l2 : list altsource) (calls : list graphCall) :
  flushShared uuid found (l1 ++ l2) calls
  = flushShared uuid found l2 (flushShared uuid found l1 calls).
Proof. apply fold_left_app. Qed.

(** The calls of a whole loop: one [ReadNode] for each entry, in order, the
    answers taken one after the other. *)
Lemma flushShared_calls (l : list altsource) : forall calls : list graphCall,
  flushShared uuid found l calls
  = (calls
     ++ concat (imap (fun i => entryCalls uuid found (reads calls + i)) l))%list.
Proof.
  induction l as [|a l IH]; intros calls.
  - simpl. by rewrite app_nil_r.
  - change (flushShared uuid found (a :: l) calls)
      with (flushShared uuid found l (reconcileShared uuid found calls a)).
    rewrite IH, reconcileShared_calls, <- app_assoc. f_equal.
    assert (Hext :
      imap (fun i => entryCalls uuid found
                       (reads (calls ++ entryCalls uuid found (reads calls) a) + i)) l
      = imap ((fun i => entryCalls uuid found (reads calls + i)) ∘ S) l).
    { apply imap_ext. intros i x _. simpl.
      rewrite reads_app, reads_entryCalls. f_equal. lia. }
    rewrite Hext. simpl. by rewrite Nat.add_0_r.
Qed.

Lemma flushShared_unstamp (l : list altsource) (calls : list graphCall) :
  flushShared uuid found (unstamp <$> l) calls = flushShared uuid found l calls.
Proof. by rewrite !flushShared_calls, imap_fmap. Qed.

Lemma processQueue_unstamp (clock : nat -> Z) (q : list DNSRequest) :
  forall (i : nat) (pending : list altsource),
  unstamp <$> processQueue clock i q pending
  = ((unstamp <$> pending) ++ (entry 0 <$> q))%list.
Proof.
  induction q as [|req rest IH]; intros i pending; simpl.
  - by rewrite app_nil_r.
  - rewrite IH. unfold each. by rewrite fmap_app, <- app_assoc.
Qed.

Lemma processQueue_length (clock : nat -> Z) (q : list DNSRequest) :
  forall (i : nat) (pending : list altsource),
  length (processQueue clock i q pending) = (length pending + length q)%nat.
Proof.
  induction q as [|req rest IH]; intros i pending; simpl; [lia|].
  rewrite IH. unfold each. rewrite length_app. simpl. lia.
Qed.

Lemma processQueue_stamps (clock : nat -> Z) (q : list DNSRequest) :
  forall (i : nat) (pending : list altsource),
  alt_Timestamp <$> processQueue clock i q pending
  = ((alt_Timestamp <$> pending) ++ (clock <$> seq i (length q)))%list.
Proof.
  induction q as [|req rest IH]; intros i pending; simpl.
  - by rewrite app_nil_r.
  - rewrite IH. unfold each. rewrite fmap_app, <- app_assoc. done.
Qed.

(** The loop of a tick takes the entries from the head as long as they are
    due. *)
Lemma scanShared_prefix (now : Z) (pending : list altsource) :
  forall (calls : list graphCall) (count : Z),
  0 <= count -> count + Z.of_nat (length pending) <= Go.maxInt ->
  exists taken waiting,
    pending = (taken ++ waiting)%list
    /\ Forall (fun a => due now a = true) taken
    /\ match waiting with
       | [] => True
       | a :: _ => due now a = false
       end
    /\ scanShared uuid found now pending calls count
       = (flushShared uuid found taken calls, count + Z.of_nat (length taken)).
Proof.
  induction pending as [|a rest IH]; intros calls count H0 Hmax.
  - exists [], []. simpl. repeat split; [constructor|f_equal; lia].
  - simpl scanShared.
    destruct (Time.Before now (Time.Add (alt_Timestamp a) (10 * Time.Minute)))
      eqn:Hdue.
    + exists [], (a :: rest). simpl. repeat split; [constructor| |f_equal; lia].
      unfold due. by rewrite Hdue.
    + simpl length in Hmax. unfold Go.maxInt in *.
      rewrite int_small by lia.
      destruct (IH (reconcileShared uuid found calls a) (count + 1))
        as (taken & waiting & -> & Htaken & Hw & Hs); [lia|lia|].
      exists (a :: taken), waiting. simpl. repeat split; [|done|].
      * constructor; [|done]. unfold due. by rewrite Hdue.
      * rewrite Hs. f_equal. lia.
Qed.

Lemma tickShared_parts (now : Z) (pending : list altsource)
    (calls : list graphCall) :
  Z.of_nat (length pending) <= Go.maxInt ->
  exists taken waiting,
    pending = (taken ++ waiting)%list
    /\ Forall (fun a => due now a = true) taken
    /\ match waiting with
       | [] => True
       | a :: _ => due now a = false
       end
    /\ tickShared uuid found now pending calls
       = (flushShared uuid found taken calls, waiting).
Proof.
  intros Hlen.
  destruct (scanShared_prefix now pending calls 0)
    as (taken & waiting & -> & Htaken & Hw & Hs); [lia|lia|].
  exists taken, waiting. repeat split; [done|done|].
  unfold tickShared. rewrite Hs. f_equal.
  rewrite Z.add_0_l, Nat2Z.id. by rewrite drop_app_length.
Qed.

(** The buffer after a tick is what is left of it from some position on. *)
Lemma tickShared_drop (now : Z) (pending : list altsource)
    (calls : list graphCall) :
  exists n : nat, snd (tickShared uuid found now pending calls) = drop n pending.
Proof.
  unfold tickShared.
  destruct (scanShared uuid found now pending calls 0) as [calls' count].
  by exists (Z.to_nat count).
Qed.

Lemma dupLoop_app (evs rest : list dupEvent) : forall st : dupState,
  noDone evs = true ->
  dupLoop uuid found (evs ++ rest) st
  = dupLoop uuid found rest (fst (dupLoop uuid found evs st)).
Proof.
  induction evs as [|e evs IH]; intros st Hnd; [done|].
  simpl in Hnd. apply andb_true_iff in Hnd as [He Hnd].
  destruct e as [req|clock|now|clock]; [| | |discriminate]; simpl.
  - by apply IH.
  - by apply IH.
  - destruct (tickShared uuid found now (dupPending st) (dupCalls st))
      as [calls pending].
    by apply IH.
Qed.

(** As long as [f.enum.done] is open the goroutine goes on, and it keeps
    the order: the entries handled so far, the buffer and the queue, one
    behind the other, are the requests queued so far. *)
Lemma dupLoop_noDone (evs : list dupEvent) :
  forall (st : dupState) (handled : list altsource),
  noDone evs = true ->
  Z.of_nat (length (dupPending st) + length (dupQueue st) + length evs)
  <= Go.maxInt ->
  dupCalls st = flushShared uuid found handled [] ->
  snd (dupLoop uuid found evs st) = false
  /\ exists handled' : list altsource,
       dupCalls (fst (dupLoop uuid found evs st))
       = flushShared uuid found handled' []
       /\ ((unstamp <$> (handled' ++ dupPending (fst (dupLoop uuid found evs st))))
           ++ (entry 0 <$> dupQueue (fst (dupLoop uuid found evs st))))%list
          = ((unstamp <$> (handled ++ dupPending st))
             ++ (entry 0 <$> (dupQueue st ++ queuedBy evs)))%list.
Proof.
  induction evs as [|e rest IH]; intros st handled Hnd Hlen Hcalls.
  - simpl. split; [done|]. exists handled. by rewrite app_nil_r.
  - simpl in Hnd. apply andb_true_iff in Hnd as [He Hnd].
    simpl length in Hlen.
    destruct e as [req|clock|now|clock]; [| | |discriminate]; simpl dupLoop.
    + destruct (IH {| dupQueue := dupQueue st ++ [req];
                      dupPending := dupPending st; dupCalls := dupCalls st |}
                  handled)
        as (Hf & handled' & Hc & Hall); [done| |exact Hcalls|].
      { simpl. rewrite length_app. simpl. lia. }
      split; [exact Hf|]. exists handled'. split; [exact Hc|].
      rewrite Hall. simpl. by rewrite <- app_assoc.
    + destruct (IH {| dupQueue := [];
                      dupPending := processQueue clock 0 (dupQueue st)
                                      (dupPending st);
                      dupCalls := dupCalls st |}
                  handled)
        as (Hf & handled' & Hc & Hall); [done| |exact Hcalls|].
      { simpl. rewrite processQueue_length. lia. }
      split; [exact Hf|]. exists handled'. split; [exact Hc|].
      rewrite Hall. simpl.
      rewrite !fmap_app, processQueue_unstamp, <- !app_assoc. done.
    + destruct (tickShared_parts now (dupPending st) (dupCalls st))
        as (taken & waiting & Hp & _ & _ & Ht); [lia|].
      rewrite Ht.
      destruct (IH {| dupQueue := dupQueue st; dupPending := waiting;
                       dupCalls := flushShared uuid found taken (dupCalls st) |}
                   (handled ++ taken)%list)
        as (Hf & handled' & Hc & Hall); [done| | |].
      { simpl. rewrite Hp, length_app in Hlen. lia. }
      { simpl. by rewrite Hcalls, flushShared_app. }
      split; [exact Hf|]. exists handled'. split; [exact Hc|].
      rewrite Hall. simpl. by rewrite Hp, app_assoc.
Qed.

Lemma dupLoop_sorted (evs : list dupEvent) : forall st : dupState,
  StronglySorted Z.le
    ((alt_Timestamp <$> dupPending st) ++ stamps evs (length (dupQueue st))) ->
  StronglySorted Z.le
    (alt_Timestamp <$> dupPending (fst (dupLoop uuid found evs st))).
Proof.
  induction evs as [|e rest IH]; intros st Hs.
  - simpl in *. by rewrite app_nil_r in Hs.
  - destruct e as [req|clock|now|clock]; simpl dupLoop.
    + apply IH. simpl. rewrite length_app, Nat.add_1_r. exact Hs.
    + apply IH. simpl. rewrite processQueue_stamps, <- app_assoc. exact Hs.
    + destruct (tickShared_drop now (dupPending st) (dupCalls st)) as [n Hn].
      destruct (tickShared uuid found now (dupPending st) (dupCalls st))
        as [calls pending].
      simpl in Hn. subst pending. apply IH. simpl.
      rewrite <- (take_drop n (dupPending st)), fmap_app, <- app_assoc in Hs.
      by apply StronglySorted_app_r in Hs.
    + simpl. rewrite processQueue_stamps. exact Hs.
Qed.

(** The calls for a list of requests handled one after the other from the
    first call on. *)
Lemma flushShared_requests (reqs : list DNSRequest) :
  flushShared uuid found (entry 0 <$> reqs) []
  = concat
      (imap
         (fun k req =>
            CallReadNode (dns_Name req) "fqdn"
            :: (if found k
                then [CallInsertFQDN (dns_Name req) (dns_Source req)
                        (dns_Tag req) uuid]
                else []))
         reqs).
Proof. by rewrite flushShared_calls, imap_fmap. Qed.

End DupNames.

(** Which entries a tick takes does not depend on the graph: the buffer
    left is the one that [tick] leaves on a graph of the goroutine's own. *)
Lemma scanShared_count {G : Type} `{Graph G} (uuid : string)
    (found : nat -> bool) (now : Z) (pending : list altsource) :
  forall (calls : list graphCall) (g : G) (count : Z),
  snd (scanShared uuid found now pending calls count)
  = snd (scanPending uuid now pending g count).
Proof.
  induction pending as [|a rest IH]; intros calls g count; [done|].
  simpl.
  destruct (Time.Before now (Time.Add (alt_Timestamp a) (10 * Time.Minute)));
    [done|apply IH].
Qed.

Lemma tickShared_buffer {G : Type} `{Graph G} (uuid : string)
    (found : nat -> bool) (now : Z) (pending : list altsource)
    (calls : list graphCall) (g : G) :
  snd (tickShared uuid found now pending calls) = snd (tick uuid now pending g).
Proof.
  unfold tickShared, tick.
  pose proof (scanShared_count uuid found now pending calls g 0) as Hc.
  destruct (scanShared uuid found now pending calls 0) as [calls' c1].
  destruct (scanPending uuid now pending g 0) as [g' c2].
  simpl in *. by subst c2.
Qed.

(** X14: [processDupNames] and the shared graph. The goroutine does not
    return before the close of [f.enum.done]; until then the calls it has
    made to the graph are those for the first requests queued, as many as the
    ticks have found due. When it returns, every request that [checkFilter]
    put in the queue up to then has been handled exactly once and in the
    order of arrival, whether a signal had moved it to the buffer or not and
    whatever the ticks did: for each request one call of [ReadNode] for its
    name and the kind [fqdn], followed by one call of [InsertFQDN] with its
    name, source and tag and the UUID of the enumeration exactly when the
    graph answered that [ReadNode] without an error. The queue is empty, and
    what happens afterwards does not reach the goroutine. It holds whatever
    the other stages write to the graph in the meantime. *)
Theorem processDupNames_at_done (uuid : string) (found : nat -> bool)
    (evs : list dupEvent) (clock : nat -> Z) (later : list dupEvent)
    (q : list DNSRequest) :
  noDone evs = true ->
  Z.of_nat (length q + length evs) <= Go.maxInt ->
  let callsFor := fun reqs : list DNSRequest =>
    concat
      (imap
         (fun k req =>
            CallReadNode (dns_Name req) "fqdn"
            :: (if found k
                then [CallInsertFQDN (dns_Name req) (dns_Source req)
                        (dns_Tag req) uuid]
                else []))
         reqs) in
  let before := processDupNames uuid found evs q in
  let after := processDupNames uuid found (evs ++ DupDone clock :: later) q in
  snd before = false
  /\ (exists n : nat,
        dupCalls (fst before) = callsFor (take n (q ++ queuedBy evs)%list))
  /\ snd after = true
  /\ dupQueue (fst after) = []
  /\ dupCalls (fst after) = callsFor (q ++ queuedBy evs)%list.
Proof.
  intros Hnd Hlen callsFor before after.
  unfold before, after, processDupNames.
  destruct (dupLoop_noDone uuid found evs
              {| dupQueue := q; dupPending := []; dupCalls := [] |} [] Hnd)
    as (Hf & handled & Hc & Hall); [simpl; lia|done|].
  simpl in Hall.
  split; [exact Hf|]. split.
  - exists (length handled). rewrite Hc.
    rewrite <- flushShared_unstamp.
    unfold callsFor. rewrite <- flushShared_requests. f_equal.
    rewrite fmap_take, <- Hall, fmap_app, <- app_assoc.
    rewrite take_app_length'; [done|]. by rewrite length_fmap.
  - rewrite (dupLoop_app uuid found evs _ _ Hnd). simpl.
    split; [done|]. split; [done|].
    rewrite Hc, <- flushShared_app, <- flushShared_unstamp.
    rewrite fmap_app, processQueue_unstamp, app_assoc, <- fmap_app, Hall.
    apply flushShared_requests.
Qed.

Lemma processDupNames_at_done_witness :
  let evs := [DupQueued Sample.aUntrusted; DupSignal (fun _ => 0);
              DupQueued Sample.bUntrusted; DupTick (601 * Time.Second);
              DupQueued Sample.aTrusted] in
  let later := [DupQueued Sample.bTrusted] in
  let found := Nat.even in
  let callsFor := fun reqs : list DNSRequest =>
    concat
      (imap
         (fun k req =>
            CallReadNode (dns_Name req) "fqdn"
            :: (if found k
                then [CallInsertFQDN (dns_Name req) (dns_Source req)
                        (dns_Tag req) "run"]
                else []))
         reqs) in
  let before := processDupNames "run" found evs [] in
  let after := processDupNames "run" found (evs ++ DupDone (fun _ => 0) :: later) [] in
  noDone evs = true
  /\ Z.of_nat (length (@nil DNSRequest) + length evs) <= Go.maxInt
  /\ dupCalls (fst after)
     = [CallReadNode "a.example.com" "fqdn";
        CallInsertFQDN "a.example.com" "Sample" "api" "run";
        CallReadNode "b.example.com" "fqdn";
        CallReadNode "a.example.com" "fqdn";
        CallInsertFQDN "a.example.com" "Sample" "dns" "run"]
  /\ snd before = false
  /\ (exists n : nat,
        dupCalls (fst before) = callsFor (take n ([] ++ queuedBy evs)%list))
  /\ snd after = true
  /\ dupQueue (fst after) = []
  /\ dupCalls (fst after) = callsFor ([] ++ queuedBy evs)%list.
Proof.
  intros evs later found callsFor before after.
  split; [reflexivity|]. split; [by vm_compute|]. split; [reflexivity|].
  apply (processDupNames_at_done "run" found evs (fun _ => 0) later []);
    [reflexivity|by vm_compute].
Defined.

(** X17: with a clock that does not run backwards the buffer is in the order
    of its time stamps at every moment: if the readings of [time.Now()] that
    the goroutine makes do not decrease, then after any sequence of events
    the time stamps do not decrease along [pending], whatever the graph
    answers. *)
Theorem processDupNames_pending_sorted (uuid : string) (found : nat -> bool)
    (evs : list dupEvent) (q : list DNSRequest) :
  StronglySorted Z.le (stamps evs (length q)) ->
  StronglySorted Z.le
    (alt_Timestamp <$> dupPending (fst (processDupNames uuid found evs q))).
Proof.
  intros Hs. unfold processDupNames. by apply dupLoop_sorted.
Qed.

Lemma processDupNames_pending_sorted_witness :
  let evs := [DupQueued Sample.aUntrusted; DupSignal (fun i => Z.of_nat i);
              DupTick 5; DupQueued Sample.bUntrusted;
              DupSignal (fun i => 7 + Z.of_nat i)] in
  StronglySorted Z.le (stamps evs (length [Sample.aTrusted]))
  /\ StronglySorted Z.le
       (alt_Timestamp
          <$> dupPending (fst (processDupNames "run" Nat.even evs
                                 [Sample.aTrusted]))).
Proof.
  intros evs.
  assert (Hs : StronglySorted Z.le (stamps evs (length [Sample.aTrusted]))).
  { repeat (constructor; [|repeat constructor; by vm_compute]). constructor. }
  split; [exact Hs|].
  apply (processDupNames_pending_sorted "run" Nat.even evs [Sample.aTrusted] Hs).
Defined.

(** ** From Process to OutputRequests *)

(** [Process] puts only resolved and subdomain requests in the queue. *)
Lemma Process_recognized (enum : Enumeration) (r : subdomainTask) (d : element) :
  Forall (fun e => recognized e = true) (queue r) ->
  Forall (fun e => recognized e = true) (queue (fst (Process enum r d))).
Proof.
  intros Hq. destruct d as [| |[req|]|]; simpl; try done.
  destruct (negb (IsDomainInScope enum (dns_Name req))); [done|].
  destruct (existsb serviceLabel _); [done|].
  rewrite checkForSubdomains_effect. cbv zeta.
  destruct (_ && _ && _); simpl.
  - repeat (apply Forall_app; split); try done; by repeat constructor.
  - apply Forall_app; split; [done|]. by repeat constructor.
Qed.

Lemma processAll_recognized (enum : Enumeration) (datas : list element) :
  forall r : subdomainTask,
  Forall (fun e => recognized e = true) (queue r) ->
  Forall (fun e => recognized e = true) (queue (fst (processAll enum r datas))).
Proof.
  induction datas as [|d rest IH]; intros r Hq; [done|].
  rewrite processAll_cons. cbn [fst]. apply IH. by apply Process_recognized.
Qed.

(** X18: the queue that [Process] fills holds nothing that [OutputRequests]
    skips. After any sequence of calls of [Process] on a new task, the case
    [default] of the type switch is not reached: a drain with a capacity
    above the number of sources times the length of the queue delivers
    every queued element to every source, in the order of the queue, and
    returns that product. *)
Theorem processAll_then_drain (enum : Enumeration) (datas : list element)
    (num : Z) :
  let r := fst (processAll enum newSubdomainTask datas) in
  Z.of_nat (length (srcs enum)) * Z.of_nat (length (queue r)) < num ->
  num + Z.of_nat (length (srcs enum)) <= 2 ^ 63 ->
  Forall (fun e => recognized e = true) (queue r)
  /\ OutputRequests enum r num
     = (Z.of_nat (length (srcs enum)) * Z.of_nat (length (queue r)),
        withQueue r [],
        flat_map (fanout (srcs enum)) (queue r)).
Proof.
  intros r Hbig Hmax.
  assert (Hrec : Forall (fun e => recognized e = true) (queue r)).
  { apply processAll_recognized. constructor. }
  split; [exact Hrec|].
  unfold OutputRequests.
  destruct (Z.leb_spec num 0); [lia|].
  destruct (drain_spec (srcs enum) num (queue r) 0 [])
    as (taken & rest & Hq & _ & Hd & Hstop); [lia|done|].
  rewrite Hd. simpl.
  rewrite Hq in Hrec. apply Forall_app in Hrec as [Htaken _].
  rewrite (filter_all _ _ Htaken) in *.
  assert (rest = []) as ->.
  { destruct Hstop as [->|Hstop]; [done|]. exfalso.
    rewrite Hq, length_app in Hbig. simpl in Hstop. nia. }
  rewrite app_nil_r in Hq. by rewrite Hq.
Qed.

Lemma processAll_then_drain_witness :
  let enum := Sample.enum ["src1"; "src2"] in
  let datas := [DNSElem (Some (Sample.dnsreq "a.b.example.com" "example.com" "dns"));
                ForeignElem "other";
                DNSElem (Some (Sample.dnsreq "_tcp.example.com" "example.com" "dns"))] in
  let r := fst (processAll enum newSubdomainTask datas) in
  Z.of_nat (length (srcs enum)) * Z.of_nat (length (queue r)) < 10
  /\ 10 + Z.of_nat (length (srcs enum)) <= 2 ^ 63
  /\ Forall (fun e => recognized e = true) (queue r)
  /\ OutputRequests enum r 10
     = (Z.of_nat (length (srcs enum)) * Z.of_nat (length (queue r)),
        withQueue r [],
        flat_map (fanout (srcs enum)) (queue r)).
Proof.
  intros enum datas r.
  assert (H1 : Z.of_nat (length (srcs enum)) * Z.of_nat (length (queue r)) < 10)
    by (by vm_compute).
  assert (H2 : 10 + Z.of_nat (length (srcs enum)) <= 2 ^ 63) by (by vm_compute).
  split; [exact H1|]. split; [exact H2|].
  apply (processAll_then_drain enum datas 10 H1 H2).
Defined.
